(** * The assumption query engine of [sympy.assumptions.ask] and the
      rewrite rule of [sympy.unify.rewrite], as a shallow embedding.

    Python objects become values of one tree type [Basic] (every SymPy
    object has a [func] and [args]); functions that may raise or that
    call the satisfiability collaborator live in a small monad [M] that
    carries the raised exception and a log of the closure-map accesses
    and satisfiability calls made. *)

From Stdlib Require Import String List Bool ZArith Lia.
Import ListNotations.
Open Scope string_scope.
Open Scope list_scope.

Set Implicit Arguments.

(** ** Expression trees *)

(** SymPy objects: symbolic objects ([Symbol], [Integer], [Add], [Mul]),
    predicates, applied predicates, the boolean combinators of
    [sympy.logic.boolalg], and the Python constants [True] and [False]
    ([BTrue], [BFalse]), which are not SymPy objects. *)
#[warnings="-register-all"]
Inductive Basic : Type :=
| Symbol (name : string)
| Integer (z : Z)
| Add (args : list Basic)
| Mul (args : list Basic)
| Predicate (name : string)
| AppliedPredicate (func : string) (arg : Basic)
| And (args : list Basic)
| Or (args : list Basic)
| Not (arg : Basic)
| Implies (a b : Basic)
| Equivalent (args : list Basic)
| BTrue
| BFalse.

Section BasicInduction.
Variable P : Basic -> Prop.
Hypothesis HSymbol : forall s, P (Symbol s).
Hypothesis HInteger : forall z, P (Integer z).
Hypothesis HAdd : forall l, Forall P l -> P (Add l).
Hypothesis HMul : forall l, Forall P l -> P (Mul l).
Hypothesis HPredicate : forall s, P (Predicate s).
Hypothesis HApplied : forall f a, P a -> P (AppliedPredicate f a).
Hypothesis HAnd : forall l, Forall P l -> P (And l).
Hypothesis HOr : forall l, Forall P l -> P (Or l).
Hypothesis HNot : forall a, P a -> P (Not a).
Hypothesis HImplies : forall a b, P a -> P b -> P (Implies a b).
Hypothesis HEquivalent : forall l, Forall P l -> P (Equivalent l).
Hypothesis HTrue : P BTrue.
Hypothesis HFalse : P BFalse.

Fixpoint Basic_ind' (e : Basic) : P e :=
  let all := fix all (l : list Basic) : Forall P l :=
    match l with
    | [] => Forall_nil P
    | x :: r => Forall_cons x (Basic_ind' x) (all r)
    end in
  match e with
  | Symbol s => HSymbol s
  | Integer z => HInteger z
  | Add l => HAdd (all l)
  | Mul l => HMul (all l)
  | Predicate s => HPredicate s
  | AppliedPredicate f a => HApplied f (Basic_ind' a)
  | And l => HAnd (all l)
  | Or l => HOr (all l)
  | Not a => HNot (Basic_ind' a)
  | Implies a b => HImplies (Basic_ind' a) (Basic_ind' b)
  | Equivalent l => HEquivalent (all l)
  | BTrue => HTrue
  | BFalse => HFalse
  end.
End BasicInduction.

(** Structural equality ([==] on SymPy objects); predicates are equal
    when their names are. *)
Fixpoint Basic_eqb (x y : Basic) {struct x} : bool :=
  let list_eqb := fix list_eqb (l1 l2 : list Basic) {struct l1} : bool :=
    match l1, l2 with
    | [], [] => true
    | a :: r1, b :: r2 => Basic_eqb a b && list_eqb r1 r2
    | _, _ => false
    end in
  match x, y with
  | Symbol s, Symbol t => String.eqb s t
  | Integer a, Integer b => Z.eqb a b
  | Add l1, Add l2 => list_eqb l1 l2
  | Mul l1, Mul l2 => list_eqb l1 l2
  | Predicate s, Predicate t => String.eqb s t
  | AppliedPredicate f a, AppliedPredicate g b => String.eqb f g && Basic_eqb a b
  | And l1, And l2 => list_eqb l1 l2
  | Or l1, Or l2 => list_eqb l1 l2
  | Not a, Not b => Basic_eqb a b
  | Implies a1 b1, Implies a2 b2 => Basic_eqb a1 a2 && Basic_eqb b1 b2
  | Equivalent l1, Equivalent l2 => list_eqb l1 l2
  | BTrue, BTrue => true
  | BFalse, BFalse => true
  | _, _ => false
  end.

Fixpoint list_Basic_eqb (l1 l2 : list Basic) : bool :=
  match l1, l2 with
  | [], [] => true
  | a :: r1, b :: r2 => Basic_eqb a b && list_Basic_eqb r1 r2
  | _, _ => false
  end.

(** [x in s] for a Python set or tuple [s] of SymPy objects. *)
Definition mem (x : Basic) (s : list Basic) : bool := existsb (Basic_eqb x) s.

(** The direct arguments of a node ([expr.args]). *)
Definition args_of (e : Basic) : list Basic :=
  match e with
  | Add l | Mul l | And l | Or l | Equivalent l => l
  | AppliedPredicate _ a | Not a => [a]
  | Implies a b => [a; b]
  | _ => []
  end.

(** Modelled from the spec: [expr.has(symbol)] of the expression model,
    which is not part of the sources: "does this object structurally
    contain that subobject" (section 6). *)
Fixpoint has (expr symbol : Basic) {struct expr} : bool :=
  let any := fix any (l : list Basic) : bool :=
    match l with
    | [] => false
    | a :: r => has a symbol || any r
    end in
  Basic_eqb expr symbol ||
  match expr with
  | Add l | Mul l | And l | Or l | Equivalent l => any l
  | AppliedPredicate _ a | Not a => has a symbol
  | Implies a b => has a symbol || has b symbol
  | _ => false
  end.

(** ** Propositional meaning *)

(** [Equivalent(a1, ..., an)] holds when all arguments agree. *)
Definition all_agree (bs : list bool) : bool :=
  forallb (fun b => b) bs || forallb negb bs.

Fixpoint eval (v : Basic -> bool) (e : Basic) {struct e} : bool :=
  match e with
  | And l => forallb (eval v) l
  | Or l => existsb (eval v) l
  | Not a => negb (eval v a)
  | Implies a b => implb (eval v a) (eval v b)
  | Equivalent l => all_agree (map (eval v) l)
  | BTrue => true
  | BFalse => false
  | _ => v e
  end.

(** The atoms of a formula, with repetitions. *)
Fixpoint atoms (e : Basic) {struct e} : list Basic :=
  match e with
  | And l | Or l | Equivalent l => flat_map atoms l
  | Not a => atoms a
  | Implies a b => atoms a ++ atoms b
  | BTrue | BFalse => []
  | _ => [e]
  end.

(** A formula is satisfiable when some valuation of its atoms makes it true. *)
Definition Satisfiable (e : Basic) : Prop := exists v, eval v e = true.

(** All sub-lists of a list: the candidate sets of true atoms. *)
Fixpoint sublists (l : list Basic) : list (list Basic) :=
  match l with
  | [] => [[]]
  | a :: r => map (cons a) (sublists r) ++ sublists r
  end.

(** Modelled from the spec: the satisfiability collaborator
    [sympy.logic.inference.satisfiable], which is not part of the
    sources; the spec (section 6) uses it only for its truthy or falsy
    outcome and takes it to be sound and complete for propositional
    logic.  The model decides by truth table over the atoms. *)
Definition sat_check (e : Basic) : bool :=
  existsb (fun s => eval (fun a => mem a s) e) (sublists (atoms e)).

(** ** Constructors of the boolean combinators *)

(** One level of flattening: [And(And(a, b), c)] has arguments [a, b, c]. *)
Fixpoint flatten_And (l : list Basic) : list Basic :=
  match l with
  | [] => []
  | And l' :: r => l' ++ flatten_And r
  | x :: r => x :: flatten_And r
  end.

Fixpoint flatten_Or (l : list Basic) : list Basic :=
  match l with
  | [] => []
  | Or l' :: r => l' ++ flatten_Or r
  | x :: r => x :: flatten_Or r
  end.

(** Arguments are kept once, at their first occurrence. *)
Fixpoint dedup (l : list Basic) : list Basic :=
  match l with
  | [] => []
  | x :: r => x :: filter (fun y => negb (Basic_eqb y x)) (dedup r)
  end.

(** No argument gives the identity, one argument is returned as it is. *)
Definition collapse (identity : Basic) (op : list Basic -> Basic)
  (l : list Basic) : Basic :=
  match l with
  | [] => identity
  | [x] => x
  | _ => op l
  end.

(** Modelled from the spec: the n-ary constructor [And(...)] of the logic
    collaborator, which is not part of the sources.  Section 6 asks for
    n-ary [And]/[Or] whose [args] are a flat sequence; [ask] relies on
    [And()] and [And(True, True)] being the constant [True].  Nested
    conjunctions are flattened, [True] is dropped, [False] absorbs,
    repeated arguments are kept once and a single argument is returned
    as it is.  The order of [args] is the order written. *)
Definition And_ (l : list Basic) : Basic :=
  let l1 := flatten_And l in
  if mem BFalse l1 then BFalse
  else collapse BTrue And (dedup (filter (fun x => negb (Basic_eqb x BTrue)) l1)).

(** Modelled from the spec: the n-ary constructor [Or(...)], dual to [And_]. *)
Definition Or_ (l : list Basic) : Basic :=
  let l1 := flatten_Or l in
  if mem BTrue l1 then BTrue
  else collapse BFalse Or (dedup (filter (fun x => negb (Basic_eqb x BFalse)) l1)).

(** Modelled from the spec: the constructor [Not(x)]; Python booleans
    are negated and a double negation is removed. *)
Definition Not_ (x : Basic) : Basic :=
  match x with
  | BTrue => BFalse
  | BFalse => BTrue
  | Not a => a
  | _ => Not x
  end.

(** ** Exceptions, the access log and the monad *)

(** The Python exceptions the modelled code can raise. *)
Inductive exn : Type :=
| KeyError
| AttributeError
| TypeError
| ValueError
| IndexError.

Inductive result (A : Type) : Type :=
| Ok (a : A)
| Raise (e : exn).

Arguments Raise {A} e.

(** What a computation did with the compiled knowledge base: a
    membership test [k in known_facts_dict], an item access
    [known_facts_dict[k]], or a call [satisfiable(f)]. *)
Inductive event : Type :=
| DictContains (k : Basic)
| DictGet (k : Basic)
| SatCall (f : Basic).

(** A computation yields the log of its accesses and either a value or
    the exception that stopped it. *)
Definition M (A : Type) : Type := (list event * result A)%type.

Definition ret (A : Type) (a : A) : M A := ([], Ok a).

Definition raise (A : Type) (e : exn) : M A := ([], Raise e).

Arguments raise {A} e.

Definition tell (ev : event) : M unit := ([ev], Ok tt).

Definition bind (A B : Type) (m : M A) (f : A -> M B) : M B :=
  match m with
  | (t, Ok a) => let (t', r) := f a in (t ++ t', r)
  | (t, Raise e) => (t, Raise e)
  end.

Definition lift (A : Type) (r : result A) : M A := ([], r).

Definition value (A : Type) (m : M A) : result A := snd m.

Definition trace (A : Type) (m : M A) : list event := fst m.

Arguments bind : simpl never.

Notation "x <- c ;; k" := (bind c (fun x => k))
  (at level 61, c at next level, right associativity).

(** ** Dictionaries and sets *)

(** A Python [dict] from SymPy objects to sets of SymPy objects, in
    insertion order; a set is a list without repetitions. *)
Definition dict : Type := list (Basic * list Basic).

Fixpoint dict_lookup (d : dict) (k : Basic) : option (list Basic) :=
  match d with
  | [] => None
  | (k', s) :: r => if Basic_eqb k' k then Some s else dict_lookup r k
  end.

(** [d[k] = s]: replaces the value of an existing key, appends a new one. *)
Fixpoint dict_set (d : dict) (k : Basic) (s : list Basic) : dict :=
  match d with
  | [] => [(k, s)]
  | (k', s') :: r =>
      if Basic_eqb k' k then (k', s) :: r else (k', s') :: dict_set r k s
  end.

(** [s.add(x)]. *)
Definition set_add (s : list Basic) (x : Basic) : list Basic :=
  if mem x s then s else s ++ [x].

(** [mapping[key].add(x)]. *)
Definition dict_add_at (mapping : dict) (key x : Basic) : M dict :=
  match dict_lookup mapping key with
  | Some s => ret (dict_set mapping key (set_add s x))
  | None => raise KeyError
  end.

(** ** [sympy/assumptions/ask.py] *)

(** [class Q]: the supported ask keys. *)
Module Q.
Definition antihermitian := Predicate "antihermitian".
Definition bounded := Predicate "bounded".
Definition commutative := Predicate "commutative".
Definition complex := Predicate "complex".
Definition composite := Predicate "composite".
Definition even := Predicate "even".
Definition extended_real := Predicate "extended_real".
Definition hermitian := Predicate "hermitian".
Definition imaginary := Predicate "imaginary".
Definition infinitesimal := Predicate "infinitesimal".
Definition infinity := Predicate "infinity".
Definition integer := Predicate "integer".
Definition irrational := Predicate "irrational".
Definition rational := Predicate "rational".
Definition negative := Predicate "negative".
Definition nonzero := Predicate "nonzero".
Definition positive := Predicate "positive".
Definition prime := Predicate "prime".
Definition real := Predicate "real".
Definition odd := Predicate "odd".
Definition is_true := Predicate "is_true".
Definition symmetric := Predicate "symmetric".
Definition invertible := Predicate "invertible".
Definition orthogonal := Predicate "orthogonal".
Definition positive_definite := Predicate "positive_definite".
Definition upper_triangular := Predicate "upper_triangular".
Definition lower_triangular := Predicate "lower_triangular".
Definition diagonal := Predicate "diagonal".
End Q.

(** Modelled from the spec: [sympify], which is not part of the sources;
    it leaves a SymPy object as it is. *)
Definition sympify (e : Basic) : Basic := e.

(** Modelled from the spec: the attribute [e.is_Atom] of the expression
    model, which is not part of the sources.  Section 4.3 takes the
    branch it guards for facts that are "a single predicate key"; symbols,
    numbers and applied predicates are not decomposed either.  The Python
    constants have no such attribute. *)
Definition is_Atom (e : Basic) : M bool :=
  match e with
  | Symbol _ | Integer _ | Predicate _ | AppliedPredicate _ _ => ret true
  | BTrue | BFalse => raise AttributeError
  | _ => ret false
  end.

(** [isinstance(key, Predicate)]. *)
Definition is_Predicate (e : Basic) : bool :=
  match e with
  | Predicate _ => true
  | _ => false
  end.

(** [filter(lambda x: x is not None, l)]. *)
Fixpoint keep_some (l : list (option Basic)) : list Basic :=
  match l with
  | [] => []
  | Some x :: r => x :: keep_some r
  | None :: r => keep_some r
  end.

(** Modelled from the spec: [expr.func] applied to the new arguments, the constructor of
    [expr]'s class applied to new arguments.  [And] and [Or] are the
    n-ary constructors above; [Not] takes one argument and [Implies] two,
    and both raise on any other number; a [Symbol], [Integer] or
    [Predicate] cannot be built from no argument. *)
Definition apply_func (expr : Basic) (args : list Basic) : M Basic :=
  match expr with
  | And _ => ret (And_ args)
  | Or _ => ret (Or_ args)
  | Not _ =>
      match args with
      | [] => raise IndexError
      | [a] => ret (Not_ a)
      | _ => raise TypeError
      end
  | Implies _ _ =>
      match args with
      | [a; b] => ret (Implies a b)
      | _ => raise ValueError
      end
  | Equivalent _ => ret (Equivalent args)
  | Add _ => ret (Add args)
  | Mul _ => ret (Mul args)
  | AppliedPredicate f _ =>
      match args with
      | [a] => ret (AppliedPredicate f a)
      | _ => raise TypeError
      end
  | Symbol _ | Integer _ | Predicate _ => raise TypeError
  | BTrue | BFalse => raise AttributeError
  end.

(** [_extract_facts(expr, symbol)]: the facts relevant to [symbol] in an
    assumption; [None] when there is nothing to extract. *)
Fixpoint _extract_facts (expr symbol : Basic) {struct expr} : M (option Basic) :=
  let extract_all := fix extract_all (l : list Basic) : M (list (option Basic)) :=
    match l with
    | [] => ret []
    | arg :: r =>
        x <- _extract_facts arg symbol ;;
        xs <- extract_all r ;;
        ret (x :: xs)
    end in
  match expr with
  | BTrue | BFalse => raise AttributeError
  | _ =>
      if negb (has expr symbol) then ret None
      else
        match expr with
        | AppliedPredicate f _ => ret (Some (Predicate f))
        | Add l | Mul l | And l | Or l | Equivalent l =>
            xs <- extract_all l ;;
            e <- apply_func expr (keep_some xs) ;;
            ret (Some e)
        | Not a =>
            x <- _extract_facts a symbol ;;
            e <- apply_func expr (keep_some [x]) ;;
            ret (Some e)
        | Implies a b =>
            x <- _extract_facts a symbol ;;
            y <- _extract_facts b symbol ;;
            e <- apply_func expr (keep_some [x; y]) ;;
            ret (Some e)
        | _ =>
            e <- apply_func expr [] ;;
            ret (Some e)
        end
  end.

(** [satisfiable(e)], used for its truth value; the call is logged. *)
Definition satisfiable (e : Basic) : M bool :=
  _ <- tell (SatCall e) ;;
  ret (sat_check e).

(** [ask_full_inference(proposition, assumptions, known_facts_cnf)];
    [Some true], [Some false] and [None] stand for [True], [False] and
    [None]. *)
Definition ask_full_inference (proposition assumptions known_facts_cnf : Basic)
  : M (option bool) :=
  s1 <- satisfiable (And_ [known_facts_cnf; assumptions; proposition]) ;;
  if negb s1 then ret (Some false)
  else
    s2 <- satisfiable (And_ [known_facts_cnf; assumptions; Not_ proposition]) ;;
    if negb s2 then ret (Some true)
    else ret None.

(** Truth value of a result of [ask_full_inference] in an [if]. *)
Definition truthy (r : option bool) : bool :=
  match r with
  | Some true => true
  | _ => false
  end.

(** The inner loop of [single_fact_lookup]: [for other_key in
    known_facts_keys], with [mapping] threaded through. *)
Fixpoint single_fact_inner (key : Basic) (others : list Basic)
  (known_facts_cnf : Basic) (mapping : dict) {struct others} : M dict :=
  match others with
  | [] => ret mapping
  | other_key :: rest =>
      if negb (Basic_eqb other_key key) then
        r <- ask_full_inference other_key key known_facts_cnf ;;
        if truthy r then
          mapping' <- dict_add_at mapping key other_key ;;
          single_fact_inner key rest known_facts_cnf mapping'
        else single_fact_inner key rest known_facts_cnf mapping
      else single_fact_inner key rest known_facts_cnf mapping
  end.

(** The outer loop: [for key in known_facts_keys]. *)
Fixpoint single_fact_outer (keys known_facts_keys : list Basic)
  (known_facts_cnf : Basic) (mapping : dict) {struct keys} : M dict :=
  match keys with
  | [] => ret mapping
  | key :: rest =>
      mapping' <- single_fact_inner key known_facts_keys known_facts_cnf
                    (dict_set mapping key [key]) ;;
      single_fact_outer rest known_facts_keys known_facts_cnf mapping'
  end.

(** [single_fact_lookup(known_facts_keys, known_facts_cnf)]. *)
Definition single_fact_lookup (known_facts_keys : list Basic)
  (known_facts_cnf : Basic) : M dict :=
  single_fact_outer known_facts_keys known_facts_keys known_facts_cnf [].

(** [cnf.args]; a Python constant has no [args]. *)
Definition get_args (e : Basic) : M (list Basic) :=
  match e with
  | BTrue | BFalse => raise AttributeError
  | _ => ret (args_of e)
  end.

Section Compiler.

(** The CNF conversion of the logic collaborator. *)
Variable to_cnf : Basic -> Basic.

(** [compute_known_facts(known_facts, known_facts_keys)].  The source
    renders the clauses [c] and the closure map [m] into the text of the
    generated module; the model returns the two parts themselves. *)
Definition compute_known_facts (known_facts : Basic)
  (known_facts_keys : list Basic) : M (list Basic * dict) :=
  let cnf := to_cnf known_facts in
  c <- get_args cnf ;;
  mapping <- single_fact_lookup known_facts_keys cnf ;;
  ret (c, mapping).

End Compiler.

Section Resolver.

(** [key(expr)._eval_ask(assumptions)]: the handlers registered for the
    key, applied to the proposition [key(expr)]; a handler may raise. *)
Variable _eval_ask : Basic -> Basic -> result (option bool).

(** The compiled knowledge base imported from [ask_generated]. *)
Variable known_facts_dict : dict.
Variable known_facts_cnf : Basic.

(** [k in known_facts_dict]. *)
Definition dict_contains (k : Basic) : M bool :=
  _ <- tell (DictContains k) ;;
  ret (match dict_lookup known_facts_dict k with Some _ => true | None => false end).

(** [known_facts_dict[k]]. *)
Definition dict_getitem (k : Basic) : M (list Basic) :=
  _ <- tell (DictGet k) ;;
  match dict_lookup known_facts_dict k with
  | Some s => ret s
  | None => raise KeyError
  end.

(** [all(k in known_facts_dict for k in args)], which stops at the
    first missing key. *)
Fixpoint all_in_dict (args : list Basic) : M bool :=
  match args with
  | [] => ret true
  | k :: r =>
      b <- dict_contains k ;;
      if b then all_in_dict r else ret false
  end.

(** [for assum in local_facts.args] of [ask]; [Some b] when the loop
    returns [b], [None] when it runs to its end. *)
Fixpoint ask_conjuncts (key : Basic) (args : list Basic) : M (option bool) :=
  match args with
  | [] => ret None
  | assum :: rest =>
      atom <- is_Atom assum ;;
      if atom then
        s <- dict_getitem assum ;;
        if mem key s then ret (Some true)
        else
          s' <- dict_getitem assum ;;
          if mem (Not_ key) s' then ret (Some false)
          else ask_conjuncts key rest
      else
        match assum with
        | Not a =>
            atom' <- is_Atom a ;;
            if atom' then
              s <- dict_getitem assum ;;
              if mem key s then ret (Some false)
              else
                s' <- dict_getitem assum ;;
                if mem (Not_ key) s' then ret (Some true)
                else ask_conjuncts key rest
            else ask_conjuncts key rest
        | _ => ask_conjuncts key rest
        end
  end.

(** The closure-map tier of [ask]; [Some b] when it returns [b], [None]
    when control reaches the full inference. *)
Definition ask_lookup (key local_facts : Basic) : M (option bool) :=
  atom <- is_Atom local_facts ;;
  if atom then
    s <- dict_getitem local_facts ;;
    if mem key s then ret (Some true)
    else
      s' <- dict_getitem local_facts ;;
      if mem (Not_ key) s' then ret (Some false)
      else ret None
  else
    match local_facts with
    | And args =>
        known <- all_in_dict args ;;
        if known then ask_conjuncts key args
        else ret None
    | Not a =>
        if is_Predicate key then
          atom' <- is_Atom a ;;
          if atom' then
            s <- dict_getitem key ;;
            if mem a s then ret (Some false)
            else ret None
          else ret None
        else ret None
    | _ => ret None
    end.

(** The key and the target object of a proposition. *)
Definition key_expr (proposition : Basic) : Basic * Basic :=
  match proposition with
  | AppliedPredicate f arg => (Predicate f, sympify arg)
  | _ => (Q.is_true, sympify proposition)
  end.

(** The proposition [key(expr)]. *)
Definition apply_key (key expr : Basic) : Basic :=
  match key with
  | Predicate f => AppliedPredicate f expr
  | _ => expr
  end.

(** [ask(proposition, assumptions, context)]. *)
Definition ask (proposition assumptions : Basic) (context : list Basic)
  : M (option bool) :=
  let assumptions := And_ [assumptions; And_ context] in
  let (key, expr) := key_expr proposition in
  res <- lift (_eval_ask (apply_key key expr) assumptions) ;;
  match res with
  | Some b => ret (Some b)
  | None =>
      match assumptions with
      | BTrue => ret None
      | _ =>
          local_facts <- _extract_facts assumptions expr ;;
          match local_facts with
          | None => ret None
          | Some BTrue => ret None
          | Some local_facts =>
              r <- ask_lookup key local_facts ;;
              match r with
              | Some b => ret (Some b)
              | None => ask_full_inference key local_facts known_facts_cnf
              end
          end
      end
  end.

End Resolver.

(** The attributes of class [Q] at run time: each predicate name with
    the handlers registered for it. *)
Definition registry : Type := list (string * list string).

Fixpoint registry_lookup (q : registry) (key : string) : option (list string) :=
  match q with
  | [] => None
  | (k, hs) :: r => if String.eqb k key then Some hs else registry_lookup r key
  end.

Fixpoint registry_set (q : registry) (key : string) (hs : list string) : registry :=
  match q with
  | [] => [(key, hs)]
  | (k, hs') :: r =>
      if String.eqb k key then (k, hs) :: r else (k, hs') :: registry_set r key hs
  end.

(** [register_handler(key, handler)], with the key given by its name (a
    [Predicate] key is first replaced by its name): the handler is
    appended to the predicate's handlers, or a new predicate is created
    with it. *)
Definition register_handler (q : registry) (key handler : string) : registry :=
  match registry_lookup q key with
  | Some hs => registry_set q key (hs ++ [handler])
  | None => registry_set q key [handler]
  end.

(** [l.remove(x)]: the first occurrence is removed. *)
Fixpoint list_remove (l : list string) (x : string) : option (list string) :=
  match l with
  | [] => None
  | y :: r =>
      if String.eqb y x then Some r
      else match list_remove r x with
           | Some r' => Some (y :: r')
           | None => None
           end
  end.

(** [remove_handler(key, handler)]: [getattr] raises on an unknown name
    and [list.remove] on a handler that is not registered. *)
Definition remove_handler (q : registry) (key handler : string) : result registry :=
  match registry_lookup q key with
  | None => Raise AttributeError
  | Some hs =>
      match list_remove hs handler with
      | Some hs' => Ok (registry_set q key hs')
      | None => Raise ValueError
      end
  end.

(** The handlers registered when the module is loaded. *)
Definition _handlers : list (string * string) :=
  [ ("antihermitian", "sets.AskAntiHermitianHandler");
    ("bounded", "calculus.AskBoundedHandler");
    ("commutative", "AskCommutativeHandler");
    ("complex", "sets.AskComplexHandler");
    ("composite", "ntheory.AskCompositeHandler");
    ("even", "ntheory.AskEvenHandler");
    ("extended_real", "sets.AskExtendedRealHandler");
    ("hermitian", "sets.AskHermitianHandler");
    ("imaginary", "sets.AskImaginaryHandler");
    ("infinitesimal", "calculus.AskInfinitesimalHandler");
    ("integer", "sets.AskIntegerHandler");
    ("irrational", "sets.AskIrrationalHandler");
    ("rational", "sets.AskRationalHandler");
    ("negative", "order.AskNegativeHandler");
    ("nonzero", "order.AskNonZeroHandler");
    ("positive", "order.AskPositiveHandler");
    ("prime", "ntheory.AskPrimeHandler");
    ("real", "sets.AskRealHandler");
    ("odd", "ntheory.AskOddHandler");
    ("algebraic", "sets.AskAlgebraicHandler");
    ("is_true", "TautologicalHandler");
    ("symmetric", "matrices.AskSymmetricHandler");
    ("invertible", "matrices.AskInvertibleHandler");
    ("orthogonal", "matrices.AskOrthogonalHandler");
    ("positive_definite", "matrices.AskPositiveDefiniteHandler");
    ("upper_triangular", "matrices.AskUpperTriangularHandler");
    ("lower_triangular", "matrices.AskLowerTriangularHandler");
    ("diagonal", "matrices.AskDiagonalHandler") ].

(** The axioms of the knowledge base; [a & b], [a | b] and [~a] are
    [And], [Or] and [Not]. *)
Definition known_facts : Basic :=
  And [
    Implies Q.real Q.complex;
    Implies Q.real Q.hermitian;
    Equivalent [Q.even; And [Q.integer; Not Q.odd]];
    Equivalent [Q.extended_real; Or [Q.real; Q.infinity]];
    Equivalent [Q.odd; And [Q.integer; Not Q.even]];
    Equivalent [Q.prime; And [Q.integer; Q.positive; Not Q.composite]];
    Implies Q.integer Q.rational;
    Implies Q.imaginary (And [Q.complex; Not Q.real]);
    Implies Q.imaginary Q.antihermitian;
    Implies Q.antihermitian (Not Q.hermitian);
    Equivalent [Q.negative; And [Q.nonzero; Not Q.positive]];
    Equivalent [Q.positive; And [Q.nonzero; Not Q.negative]];
    Equivalent [Q.rational; And [Q.real; Not Q.irrational]];
    Equivalent [Q.real; Or [Q.rational; Q.irrational]];
    Implies Q.nonzero Q.real;
    Equivalent [Q.nonzero; Or [Q.positive; Q.negative]];
    Implies Q.orthogonal Q.positive_definite;
    Implies Q.positive_definite Q.invertible;
    Implies Q.diagonal Q.upper_triangular;
    Implies Q.diagonal Q.lower_triangular ].

(** ** [sympy/unify/rewrite.py] *)

Section Rewrite.

(** A match: what [unify] yields and [subs] consumes. *)
Variable substitution : Type.

(** The empty dictionary [{}] that starts the unification. *)
Variable empty_substitution : substitution.

(** [unify(p1, expr, {})]: the matches, in the order they are yielded. *)
Variable unify : Basic -> Basic -> substitution -> list substitution.

(** [subs(match)(p2)]. *)
Variable subs : substitution -> Basic -> Basic.

(** [rebuild(expr2)] and [isinstance(expr2, Expr)]. *)
Variable rebuild : Basic -> Basic.
Variable is_Expr : Basic -> bool.

(** The loop of [rewrite_rl]: one [yield] for each match. *)
Fixpoint rewrite_matches (p2 : Basic) (matches : list substitution) : list Basic :=
  match matches with
  | [] => []
  | m :: rest =>
      let expr2 := subs m p2 in
      let expr2 := if is_Expr expr2 then rebuild expr2 else expr2 in
      expr2 :: rewrite_matches p2 rest
  end.

(** [rewrite_rl(expr)] for the patterns [p1] and [p2]; the generator is
    the list of the values it yields. *)
Definition rewrite_rl (p1 p2 expr : Basic) : list Basic :=
  rewrite_matches p2 (unify p1 expr empty_substitution).

(** [rewriterule(p1, p2)] returns the function [rewrite_rl]. *)
Definition rewriterule (p1 p2 : Basic) : Basic -> list Basic :=
  rewrite_rl p1 p2.

End Rewrite.

(** ** Notions used in the statements *)

(** [other] is recorded for [key]: the first satisfiability call of
    [ask_full_inference(other, key, cnf)] succeeds and the second fails. *)
Definition entailed (known_facts_cnf key other : Basic) : bool :=
  sat_check (And_ [known_facts_cnf; key; other]) &&
  negb (sat_check (And_ [known_facts_cnf; key; Not_ other])).

(** An atomic conjunct: a bare key or a negated bare key. *)
Definition is_literal (c : Basic) : bool :=
  match c with
  | Predicate _ => true
  | Not (Predicate _) => true
  | _ => false
  end.

(** The closure-map entry of conjunct [c] says nothing about [key]. *)
Definition no_hit (d : dict) (key c : Basic) : Prop :=
  forall s, dict_lookup d c = Some s -> ~ In key s /\ ~ In (Not key) s.

(** [k] is a key of the dictionary. *)
Definition has_key (d : dict) (k : Basic) : bool :=
  match dict_lookup d k with
  | Some _ => true
  | None => false
  end.

(** A handler set without opinion on anything. *)
Definition no_opinion : Basic -> Basic -> result (option bool) :=
  fun _ _ => Ok None.

(** What [mapping[k]] holds for a key [k] once the loops of [single_fact_lookup] are over. *)
Definition closure_of (cnf : Basic) (keys : list Basic) (k : Basic)
  (s : list Basic) : Prop :=
  forall x, In x s <-> x = k \/ (In x keys /\ x <> k /\ entailed cnf k x = true).

(** ** Module-level state of [ask.py] *)

(** The names bound in the body of [class Q], without handlers yet. *)
Definition Q_class : registry :=
  map (fun name => (name, []))
    [ "antihermitian"; "bounded"; "commutative"; "complex"; "composite";
      "even"; "extended_real"; "hermitian"; "imaginary"; "infinitesimal";
      "infinity"; "integer"; "irrational"; "rational"; "negative"; "nonzero";
      "positive"; "prime"; "real"; "odd"; "is_true"; "symmetric"; "invertible";
      "orthogonal"; "positive_definite"; "upper_triangular"; "lower_triangular";
      "diagonal" ].

Definition _val_template (value : string) : string :=
  ("sympy.assumptions.handlers." ++ value)%string.

(** [for name, value in _handlers: register_handler(name, _val_template % value)]. *)
Definition Q_loaded : registry :=
  fold_left (fun q nv => register_handler q (fst nv) (_val_template (snd nv)))
    _handlers Q_class.

(** [known_facts_keys]: the predicates of [Q] once the handlers are
    registered, in the order of their definition. *)
Definition known_facts_keys : list Basic :=
  map (fun entry => Predicate (fst entry)) Q_loaded.

(** ** A small knowledge base *)

(** The axioms [integer => rational] and [prime => integer] in CNF,
    their keys, and the closure map [single_fact_lookup] builds for
    them. *)
Definition small_cnf : Basic :=
  And [Or [Not Q.integer; Q.rational]; Or [Not Q.prime; Q.integer]].

Definition small_keys : list Basic := [Q.integer; Q.rational; Q.prime].

Definition small_dict : dict :=
  [ (Q.integer, [Q.integer; Q.rational]);
    (Q.rational, [Q.rational]);
    (Q.prime, [Q.prime; Q.integer; Q.rational]) ].

(** A closure map that also has entries for two negated keys. *)
Definition negated_dict : dict :=
  [ (Q.integer, [Q.integer; Q.rational]);
    (Not Q.integer, [Not Q.integer]);
    (Not Q.prime, [Not Q.prime]) ].

Definition sym_x : Basic := Symbol "x".

(** The assumption [~integer(x) | real(x)], which mentions the negated
    proposition [~integer(x)] itself. *)
Definition mentions_negation : Basic :=
  Or [Not (AppliedPredicate "integer" sym_x); AppliedPredicate "real" sym_x].

(** A handler set that knows integer literals to be integers and has
    no opinion otherwise. *)
Definition literal_handlers (proposition assumptions : Basic)
  : result (option bool) :=
  match proposition with
  | AppliedPredicate f (Integer _) =>
      if String.eqb f "integer" then Ok (Some true) else Ok None
  | _ => Ok None
  end.

(** A sample matcher for [rewriterule]: matches are association lists;
    a pattern that is a symbol matches any expression and binds it, any
    other pattern matches the expression equal to it. *)
Definition sample_unify (p expr : Basic) (s : list (string * Basic))
  : list (list (string * Basic)) :=
  match p with
  | Symbol v => [(v, expr) :: s]
  | _ => if Basic_eqb p expr then [s] else []
  end.

Fixpoint sample_lookup (s : list (string * Basic)) (v : string) : option Basic :=
  match s with
  | [] => None
  | (w, e) :: r => if String.eqb w v then Some e else sample_lookup r v
  end.

(** The sample substitution, applied under the arithmetic operators. *)
Fixpoint sample_subs (s : list (string * Basic)) (e : Basic) {struct e} : Basic :=
  match e with
  | Symbol v =>
      match sample_lookup s v with
      | Some e' => e'
      | None => e
      end
  | Add l => Add (map (sample_subs s) l)
  | Mul l => Mul (map (sample_subs s) l)
  | _ => e
  end.

(** [isinstance(e, Expr)]: the objects that are not boolean. *)
Definition sample_is_Expr (e : Basic) : bool :=
  match e with
  | Symbol _ | Integer _ | Add _ | Mul _ => true
  | _ => false
  end.

(** ** Notions used for the further properties *)



(** A formula over bare predicate keys: no applied predicate and no
    symbolic object occurs in it. *)
Fixpoint keys_only (e : Basic) {struct e} : bool :=
  match e with
  | Predicate _ | BTrue | BFalse => true
  | And l | Or l | Equivalent l => forallb keys_only l
  | Not a => keys_only a
  | Implies a b => keys_only a && keys_only b
  | _ => false
  end.

(** An assumption expression: a boolean combination of applied
    predicates. *)
Fixpoint is_assumption (e : Basic) {struct e} : bool :=
  match e with
  | AppliedPredicate _ _ => true
  | And l | Or l | Equivalent l => forallb is_assumption l
  | Not a => is_assumption a
  | Implies a b => is_assumption a && is_assumption b
  | _ => false
  end.

(** The list comprehension of [_extract_facts]:
    [[_extract_facts(arg, symbol) for arg in args]]. *)
Definition _extract_facts_list (symbol : Basic)
  : list Basic -> M (list (option Basic)) :=
  fix extract_all (l : list Basic) : M (list (option Basic)) :=
    match l with
    | [] => ret []
    | arg :: r =>
        x <- _extract_facts arg symbol ;;
        xs <- extract_all r ;;
        ret (x :: xs)
    end.


(** A computation that logs nothing. *)
Definition silent (A : Type) (m : M A) : Prop := trace m = [].

(** Facts that are a disjunction, an implication or an equivalence: the
    shapes for which [ask] has no closure-map branch. *)
Definition plain_shape (e : Basic) : bool :=
  match e with
  | Or _ | Implies _ _ | Equivalent _ => true
  | _ => false
  end.

(** What [_extract_facts] keeps of an applied predicate: its key when it
    mentions the symbol, nothing otherwise. *)
Definition relevant_key (symbol e : Basic) : option Basic :=
  match e with
  | AppliedPredicate f _ => if has e symbol then Some (Predicate f) else None
  | _ => None
  end.

Definition is_applied (e : Basic) : bool :=
  match e with
  | AppliedPredicate _ _ => true
  | _ => false
  end.

Unset Implicit Arguments.

(** ** Facts about equality and meaning *)

Lemma Basic_eqb_list_unfold l1 l2 :
  (fix list_eqb (l1 l2 : list Basic) {struct l1} : bool :=
     match l1, l2 with
     | [], [] => true
     | a :: r1, b :: r2 => Basic_eqb a b && list_eqb r1 r2
     | _, _ => false
     end) l1 l2 = list_Basic_eqb l1 l2.
Proof.
  reflexivity.
Qed.

Lemma list_Basic_eqb_eq l1 :
  Forall (fun x => forall y, Basic_eqb x y = true <-> x = y) l1 ->
  forall l2, list_Basic_eqb l1 l2 = true <-> l1 = l2.
Proof.
  induction 1 as [|a r Ha Hr IH]; intros [|b r2]; simpl;
    try (split; [discriminate | discriminate]); try tauto.
  rewrite andb_true_iff, Ha, IH. split.
  - now intros [-> ->].
  - intros E; injection E; auto.
Qed.

Lemma Basic_eqb_eq x : forall y, Basic_eqb x y = true <-> x = y.
Proof.
  induction x using Basic_ind'; intros y; destruct y; simpl;
    try (split; [discriminate | discriminate]);
    try rewrite Basic_eqb_list_unfold;
    try (rewrite (list_Basic_eqb_eq _ H); split; [now intros -> | now intros [= ->]]).
  - rewrite String.eqb_eq. split; [now intros -> | now intros [= ->]].
  - rewrite Z.eqb_eq. split; [now intros -> | now intros [= ->]].
  - rewrite String.eqb_eq. split; [now intros -> | now intros [= ->]].
  - rewrite andb_true_iff, String.eqb_eq, IHx.
    split; [now intros [-> ->] | now intros [= -> ->]].
  - rewrite IHx. split; [now intros -> | now intros [= ->]].
  - rewrite andb_true_iff, IHx1, IHx2.
    split; [now intros [-> ->] | now intros [= -> ->]].
  - tauto.
  - tauto.
Qed.

Lemma Basic_eqb_refl x : Basic_eqb x x = true.
Proof. now apply Basic_eqb_eq. Qed.

Lemma Basic_eqb_neq x y : Basic_eqb x y = false <-> x <> y.
Proof.
  rewrite <- (Basic_eqb_eq x y). destruct (Basic_eqb x y); split; congruence.
Qed.

Lemma mem_In x s : mem x s = true <-> In x s.
Proof.
  unfold mem. rewrite existsb_exists. split.
  - intros (y & Hy & E). apply Basic_eqb_eq in E. now subst.
  - intros H. exists x. split; [assumption | apply Basic_eqb_refl].
Qed.

Lemma mem_false x s : mem x s = false <-> ~ In x s.
Proof.
  rewrite <- mem_In. destruct (mem x s); split; congruence.
Qed.

Lemma forallb_ext_in (A : Type) (f g : A -> bool) l :
  Forall (fun x => f x = g x) l -> forallb f l = forallb g l.
Proof. induction 1 as [|x r E _ IH]; simpl; [reflexivity | now rewrite E, IH]. Qed.

Lemma existsb_ext_in (A : Type) (f g : A -> bool) l :
  Forall (fun x => f x = g x) l -> existsb f l = existsb g l.
Proof. induction 1 as [|x r E _ IH]; simpl; [reflexivity | now rewrite E, IH]. Qed.

Lemma map_ext_Forall (A B : Type) (f g : A -> B) l :
  Forall (fun x => f x = g x) l -> map f l = map g l.
Proof. induction 1 as [|x r E _ IH]; simpl; [reflexivity | now rewrite E, IH]. Qed.

Lemma Forall_atoms_flat_map (P : Basic -> Prop) (Q : Basic -> Prop) l :
  Forall (fun x => (forall a, In a (atoms x) -> P a) -> Q x) l ->
  (forall a, In a (flat_map atoms l) -> P a) ->
  Forall Q l.
Proof.
  induction 1 as [|x r Hx _ IH]; intros Hall; constructor.
  - apply Hx. intros a Ha. apply Hall. simpl. apply in_or_app. now left.
  - apply IH. intros a Ha. apply Hall. simpl. apply in_or_app. now right.
Qed.

(** The meaning of a formula depends on its atoms only. *)
Lemma eval_ext v w e :
  (forall a, In a (atoms e) -> v a = w a) -> eval v e = eval w e.
Proof.
  induction e using Basic_ind'; simpl; intros Hvw;
    try (apply Hvw; now left); try reflexivity.
  - apply forallb_ext_in. apply Forall_atoms_flat_map with (P := fun a => v a = w a); assumption.
  - apply existsb_ext_in. apply Forall_atoms_flat_map with (P := fun a => v a = w a); assumption.
  - f_equal. apply IHe, Hvw.
  - f_equal; [apply IHe1 | apply IHe2]; intros a Ha; apply Hvw, in_or_app; auto.
  - f_equal. apply map_ext_Forall. apply Forall_atoms_flat_map with (P := fun a => v a = w a); assumption.
Qed.

Lemma sublists_filter (f : Basic -> bool) l : In (filter f l) (sublists l).
Proof.
  induction l as [|a r IH]; simpl; [now left|].
  apply in_or_app. destruct (f a).
  - left. now apply in_map.
  - now right.
Qed.

(** The truth table is sound and complete: the model of the
    collaborator answers true exactly on the satisfiable formulas. *)
Lemma sat_check_Satisfiable e : sat_check e = true <-> Satisfiable e.
Proof.
  unfold sat_check, Satisfiable. rewrite existsb_exists. split.
  - intros (s & _ & Hs). now exists (fun a => mem a s).
  - intros (v & Hv). exists (filter v (atoms e)). split.
    + apply sublists_filter.
    + rewrite <- Hv. apply eval_ext. intros a Ha.
      destruct (v a) eqn:Eva.
      * apply mem_In, filter_In. auto.
      * apply mem_false. rewrite filter_In. intros [_ E]. congruence.
Qed.

Lemma sat_check_unsat e : sat_check e = false <-> ~ Satisfiable e.
Proof.
  rewrite <- sat_check_Satisfiable. destruct (sat_check e); split; congruence.
Qed.

Lemma eval_Not_ v x : eval v (Not_ x) = negb (eval v x).
Proof. destruct x; simpl; try reflexivity. now rewrite negb_involutive. Qed.

Lemma forallb_flatten_And v l :
  forallb (eval v) (flatten_And l) = forallb (eval v) l.
Proof.
  induction l as [|x r IH]; simpl; [reflexivity|].
  destruct x; simpl; rewrite <- ?IH; try reflexivity.
  now rewrite forallb_app.
Qed.

Lemma existsb_flatten_Or v l :
  existsb (eval v) (flatten_Or l) = existsb (eval v) l.
Proof.
  induction l as [|x r IH]; simpl; [reflexivity|].
  destruct x; simpl; rewrite <- ?IH; try reflexivity.
  now rewrite existsb_app.
Qed.

Lemma In_dedup x l : In x (dedup l) <-> In x l.
Proof.
  induction l as [|y r IH]; simpl; [tauto|].
  rewrite filter_In, IH, negb_true_iff, Basic_eqb_neq.
  destruct (Basic_eqb y x) eqn:E.
  - apply Basic_eqb_eq in E. subst. tauto.
  - apply Basic_eqb_neq in E. split; [tauto|].
    intros [?|?]; [tauto|]. right. split; [assumption|congruence].
Qed.

Lemma forallb_In_iff (f : Basic -> bool) l1 l2 :
  (forall x, In x l1 <-> In x l2) -> forallb f l1 = forallb f l2.
Proof.
  intros H. apply eq_true_iff_eq. rewrite !forallb_forall.
  split; intros Hf x Hx; apply Hf, H, Hx.
Qed.

Lemma existsb_In_iff (f : Basic -> bool) l1 l2 :
  (forall x, In x l1 <-> In x l2) -> existsb f l1 = existsb f l2.
Proof.
  intros H. apply eq_true_iff_eq. rewrite !existsb_exists.
  split; intros (x & Hx & Hfx); exists x; split; auto; apply H, Hx.
Qed.

Lemma eval_list_shape_And v l :
  eval v (collapse BTrue And l) = forallb (eval v) l.
Proof.
  destruct l as [|x [|y r]]; simpl; try reflexivity. now rewrite andb_true_r.
Qed.

Lemma eval_list_shape_Or v l :
  eval v (collapse BFalse Or l) = existsb (eval v) l.
Proof.
  destruct l as [|x [|y r]]; simpl; try reflexivity. now rewrite orb_false_r.
Qed.

Lemma eval_And_ v l : eval v (And_ l) = forallb (eval v) l.
Proof.
  unfold And_. rewrite <- (forallb_flatten_And v l).
  generalize (flatten_And l) as l1. intros l1.
  destruct (mem BFalse l1) eqn:Hm.
  - apply mem_In in Hm. simpl. symmetry. apply not_true_is_false.
    rewrite forallb_forall. intros H. now specialize (H _ Hm).
  - rewrite eval_list_shape_And.
    rewrite (@forallb_In_iff (eval v) _ _ (fun x => In_dedup x _)).
    induction l1 as [|x r IH]; simpl; [reflexivity|].
    simpl in Hm. apply orb_false_iff in Hm. destruct Hm as [_ Hm].
    destruct (Basic_eqb x BTrue) eqn:E; simpl.
    + apply Basic_eqb_eq in E. subst. simpl. auto.
    + now rewrite IH.
Qed.

Lemma eval_Or_ v l : eval v (Or_ l) = existsb (eval v) l.
Proof.
  unfold Or_. rewrite <- (existsb_flatten_Or v l).
  generalize (flatten_Or l) as l1. intros l1.
  destruct (mem BTrue l1) eqn:Hm.
  - apply mem_In in Hm. simpl. symmetry. apply existsb_exists.
    now exists BTrue.
  - rewrite eval_list_shape_Or.
    rewrite (@existsb_In_iff (eval v) _ _ (fun x => In_dedup x _)).
    induction l1 as [|x r IH]; simpl; [reflexivity|].
    simpl in Hm. apply orb_false_iff in Hm. destruct Hm as [_ Hm].
    destruct (Basic_eqb x BFalse) eqn:E; simpl.
    + apply Basic_eqb_eq in E. subst. simpl. auto.
    + now rewrite IH.
Qed.

(** ** The monad *)

Lemma value_bind (A B : Type) (m : M A) (f : A -> M B) :
  value (bind m f) =
  match value m with
  | Ok a => value (f a)
  | Raise e => Raise e
  end.
Proof.
  unfold value, bind. destruct m as [t [a|e]]; simpl; [|reflexivity].
  now destruct (f a).
Qed.

(** ** Dictionaries and sets *)

Lemma dict_lookup_set_same d k s : dict_lookup (dict_set d k s) k = Some s.
Proof.
  induction d as [|[k' s'] r IH]; simpl.
  - now rewrite Basic_eqb_refl.
  - destruct (Basic_eqb k' k) eqn:E; simpl; now rewrite E.
Qed.

Lemma dict_lookup_set_other d k s k' :
  k' <> k -> dict_lookup (dict_set d k s) k' = dict_lookup d k'.
Proof.
  intros Hne. induction d as [|[k0 s0] r IH]; simpl.
  - destruct (Basic_eqb k k') eqn:E; [|reflexivity].
    apply Basic_eqb_eq in E. congruence.
  - destruct (Basic_eqb k0 k) eqn:E; simpl.
    + apply Basic_eqb_eq in E. subst k0.
      destruct (Basic_eqb k k') eqn:E'; [|reflexivity].
      apply Basic_eqb_eq in E'. congruence.
    + now rewrite IH.
Qed.

Lemma In_set_add s x y : In y (set_add s x) <-> In y s \/ y = x.
Proof.
  unfold set_add. destruct (mem x s) eqn:E.
  - apply mem_In in E. split; [tauto|]. intros [? | ->]; assumption.
  - rewrite in_app_iff. simpl. split; intros [?|?]; auto.
    + destruct H; [auto | contradiction].
Qed.

(** ** Satisfiability of conjunctions *)

Lemma Satisfiable_And_ l : Satisfiable (And_ l) <-> Satisfiable (And l).
Proof.
  unfold Satisfiable. split; intros [v Hv]; exists v;
    [rewrite eval_And_ in Hv | rewrite eval_And_]; exact Hv.
Qed.

Lemma sat_check_And_ l : sat_check (And_ l) = sat_check (And l).
Proof.
  apply eq_true_iff_eq. rewrite !sat_check_Satisfiable. apply Satisfiable_And_.
Qed.

Lemma Satisfiable_Not_ K A P :
  Satisfiable (And [K; A; Not_ P]) <-> Satisfiable (And [K; A; Not P]).
Proof.
  unfold Satisfiable. split; intros [v Hv]; exists v; simpl in *;
    [rewrite eval_Not_ in Hv | rewrite eval_Not_]; exact Hv.
Qed.

(** ** [ask_full_inference] *)

Lemma value_satisfiable e : value (satisfiable e) = Ok (sat_check e).
Proof. reflexivity. Qed.

Lemma value_ask_full_inference P A K :
  value (ask_full_inference P A K) =
  Ok (if sat_check (And [K; A; P])
      then if sat_check (And [K; A; Not P]) then None else Some true
      else Some false).
Proof.
  unfold ask_full_inference.
  rewrite value_bind, value_satisfiable, sat_check_And_. cbv beta iota.
  destruct (sat_check (And [K; A; P])); cbn [negb]; [|reflexivity].
  rewrite value_bind, value_satisfiable, sat_check_And_. cbv beta iota.
  replace (sat_check (And [K; A; Not_ P])) with (sat_check (And [K; A; Not P])).
  - now destruct (sat_check (And [K; A; Not P])).
  - apply eq_true_iff_eq. rewrite !sat_check_Satisfiable.
    symmetry. apply Satisfiable_Not_.
Qed.

Lemma trace_ask_full_inference P A K :
  trace (ask_full_inference P A K) =
  SatCall (And_ [K; A; P]) ::
  (if sat_check (And_ [K; A; P]) then [SatCall (And_ [K; A; Not_ P])] else []).
Proof.
  unfold ask_full_inference, satisfiable, bind, tell, ret, trace.
  destruct (sat_check (And_ [K; A; P])); simpl; [|reflexivity].
  now destruct (sat_check (And_ [K; A; Not_ P])).
Qed.

Lemma truthy_ask_full_inference other key cnf :
  exists r, value (ask_full_inference other key cnf) = Ok r /\
            truthy r = entailed cnf key other.
Proof.
  rewrite value_ask_full_inference. eexists. split; [reflexivity|].
  unfold entailed. rewrite !sat_check_And_.
  replace (sat_check (And [cnf; key; Not_ other]))
    with (sat_check (And [cnf; key; Not other])).
  - destruct (sat_check (And [cnf; key; other])); simpl; [|reflexivity].
    now destruct (sat_check (And [cnf; key; Not other])).
  - apply eq_true_iff_eq. rewrite !sat_check_Satisfiable.
    symmetry. apply Satisfiable_Not_.
Qed.

Lemma entailed_value other key cnf :
  entailed cnf key other = true <->
  value (ask_full_inference other key cnf) = Ok (Some true).
Proof.
  destruct (truthy_ask_full_inference other key cnf) as (r & Hr & Ht).
  rewrite Hr, <- Ht. destruct r as [[|]|]; simpl; split; congruence.
Qed.

(** C1. [ask_full_inference(P, A, K)] returns [False] when [K & A & P] is
    unsatisfiable; otherwise [True] when [K & A & ~P] is unsatisfiable;
    otherwise [None].  It returns in every case (no exception), so these
    three are its only results. *)
Theorem ask_full_inference_three_valued (P A K : Basic) :
  (~ Satisfiable (And [K; A; P]) ->
   value (ask_full_inference P A K) = Ok (Some false)) /\
  (Satisfiable (And [K; A; P]) -> ~ Satisfiable (And [K; A; Not P]) ->
   value (ask_full_inference P A K) = Ok (Some true)) /\
  (Satisfiable (And [K; A; P]) -> Satisfiable (And [K; A; Not P]) ->
   value (ask_full_inference P A K) = Ok None) /\
  (exists r, value (ask_full_inference P A K) = Ok r).
Proof.
  rewrite value_ask_full_inference.
  repeat split.
  - intros H. apply sat_check_unsat in H. now rewrite H.
  - intros H1 H2. apply sat_check_Satisfiable in H1.
    apply sat_check_unsat in H2. now rewrite H1, H2.
  - intros H1 H2. apply sat_check_Satisfiable in H1.
    apply sat_check_Satisfiable in H2. now rewrite H1, H2.
  - eexists. reflexivity.
Qed.

Lemma ask_full_inference_three_valued_witness :
  value (ask_full_inference Q.odd Q.even (Or [Not Q.even; Not Q.odd]))
    = Ok (Some false) /\
  value (ask_full_inference Q.rational Q.integer (Or [Not Q.integer; Q.rational]))
    = Ok (Some true) /\
  value (ask_full_inference Q.integer Q.rational (Or [Not Q.integer; Q.rational]))
    = Ok None.
Proof.
  split; [|split].
  - apply (ask_full_inference_three_valued Q.odd Q.even (Or [Not Q.even; Not Q.odd])).
    apply sat_check_unsat. vm_compute. reflexivity.
  - apply (ask_full_inference_three_valued Q.rational Q.integer
             (Or [Not Q.integer; Q.rational])).
    + apply sat_check_Satisfiable. vm_compute. reflexivity.
    + apply sat_check_unsat. vm_compute. reflexivity.
  - apply (ask_full_inference_three_valued Q.integer Q.rational
             (Or [Not Q.integer; Q.rational])).
    + apply sat_check_Satisfiable. vm_compute. reflexivity.
    + apply sat_check_Satisfiable. vm_compute. reflexivity.
Defined.

(** ** [single_fact_lookup] *)

Lemma value_dict_add_at m key x s :
  dict_lookup m key = Some s ->
  value (dict_add_at m key x) = Ok (dict_set m key (set_add s x)).
Proof. intros H. unfold dict_add_at. now rewrite H. Qed.

Lemma single_fact_inner_unfold key other_key rest cnf m :
  single_fact_inner key (other_key :: rest) cnf m =
  if negb (Basic_eqb other_key key) then
    r <- ask_full_inference other_key key cnf ;;
    if truthy r then
      mapping' <- dict_add_at m key other_key ;;
      single_fact_inner key rest cnf mapping'
    else single_fact_inner key rest cnf m
  else single_fact_inner key rest cnf m.
Proof. reflexivity. Qed.

(** The inner loop adds to [mapping[key]] the other keys that are
    entailed, and touches no other entry. *)
Lemma single_fact_inner_spec key cnf others :
  forall m s0,
    dict_lookup m key = Some s0 ->
    exists m' s,
      value (single_fact_inner key others cnf m) = Ok m' /\
      dict_lookup m' key = Some s /\
      (forall k, k <> key -> dict_lookup m' k = dict_lookup m k) /\
      (forall x, In x s <->
                 In x s0 \/ (In x others /\ x <> key /\ entailed cnf key x = true)).
Proof.
  induction others as [|o rest IH]; intros m s0 Hm.
  - exists m, s0. repeat split; auto. simpl. tauto.
  - rewrite single_fact_inner_unfold.
    destruct (Basic_eqb o key) eqn:E; cbn [negb].
    + apply Basic_eqb_eq in E. subst o.
      destruct (IH m s0 Hm) as (m' & s & Hv & Hs & Hk & Hx).
      exists m', s. repeat split; auto.
      * intros Hin. apply Hx in Hin. simpl. tauto.
      * intros [Hin | ([-> | Hin] & Hne & He)]; apply Hx; tauto.
    + apply Basic_eqb_neq in E.
      destruct (truthy_ask_full_inference o key cnf) as (r & Hr & Ht).
      rewrite value_bind, Hr.
      destruct (truthy r) eqn:Hy.
      * rewrite value_bind, (value_dict_add_at _ _ o _ Hm).
        destruct (IH (dict_set m key (set_add s0 o)) (set_add s0 o)
                    (dict_lookup_set_same m key _)) as (m' & s & Hv & Hs & Hk & Hx).
        exists m', s. repeat split; auto.
        -- intros k Hne. rewrite (Hk k Hne). now apply dict_lookup_set_other.
        -- intros Hin. apply Hx in Hin. rewrite In_set_add in Hin. simpl.
           destruct Hin as [[Hin | ->] | Hin]; [tauto | | tauto].
           right. split; [now left | split; [assumption | congruence]].
        -- intros Hin. apply Hx. rewrite In_set_add. simpl in Hin.
           destruct Hin as [Hin | ([<- | Hin] & Hne & He)]; tauto.
      * destruct (IH m s0 Hm) as (m' & s & Hv & Hs & Hk & Hx).
        exists m', s. repeat split; auto.
        -- intros Hin. apply Hx in Hin. simpl. tauto.
        -- intros Hin. apply Hx. simpl in Hin.
           destruct Hin as [Hin | ([<- | Hin] & Hne & He)]; [tauto | | tauto].
           congruence.
Qed.

Lemma single_fact_outer_spec all cnf keys :
  forall m,
    exists m',
      value (single_fact_outer keys all cnf m) = Ok m' /\
      (forall k, In k keys ->
         exists s, dict_lookup m' k = Some s /\ closure_of cnf all k s) /\
      (forall k, ~ In k keys -> dict_lookup m' k = dict_lookup m k).
Proof.
  induction keys as [|key rest IH]; intros m.
  - exists m. simpl. repeat split; auto. intros k [].
  - cbn [single_fact_outer].
    destruct (single_fact_inner_spec key cnf all _ _
                (dict_lookup_set_same m key [key])) as (m1 & s & Hv & Hs & Hk & Hx).
    rewrite value_bind, Hv.
    destruct (IH m1) as (m' & Hv' & Hin & Hout).
    exists m'. split; [assumption|]. split.
    + intros k Hk0.
      destruct (in_dec (fun a b => match Basic_eqb a b as c
                                     return (Basic_eqb a b = c -> {a = b} + {a <> b})
                                   with
                                   | true => fun H => left (proj1 (Basic_eqb_eq a b) H)
                                   | false => fun H => right (proj1 (Basic_eqb_neq a b) H)
                                   end eq_refl) k rest) as [Hr | Hr].
      * now apply Hin.
      * destruct Hk0 as [<- | Hk0]; [|contradiction].
        exists s. rewrite (Hout key Hr). split; [assumption|].
        intros x. rewrite Hx. simpl. split.
        -- intros [[<- | []] | H]; [now left | now right].
        -- intros [-> | H]; [left; now left | now right].
    + intros k Hk0. simpl in Hk0.
      rewrite (Hout k); [|tauto].
      rewrite Hk; [|intros ->; tauto].
      apply dict_lookup_set_other. intros ->. tauto.
Qed.

(** [single_fact_lookup] returns, and maps each key to itself together
    with the other keys for which [ask_full_inference] is true; nothing
    else is a key of the result. *)
Lemma single_fact_lookup_spec keys cnf :
  exists m,
    value (single_fact_lookup keys cnf) = Ok m /\
    (forall k, In k keys ->
       exists s, dict_lookup m k = Some s /\ closure_of cnf keys k s) /\
    (forall k, ~ In k keys -> dict_lookup m k = None).
Proof.
  unfold single_fact_lookup.
  destruct (single_fact_outer_spec keys cnf keys []) as (m & Hv & Hin & Hout).
  exists m. repeat split; auto.
Qed.

Lemma single_fact_lookup_entry keys cnf m a s :
  value (single_fact_lookup keys cnf) = Ok m ->
  dict_lookup m a = Some s ->
  In a keys /\ closure_of cnf keys a s.
Proof.
  intros Hv Hs.
  destruct (single_fact_lookup_spec keys cnf) as (m0 & Hv0 & Hin & Hout).
  rewrite Hv in Hv0. injection Hv0 as <-.
  destruct (mem a keys) eqn:E.
  - apply mem_In in E. split; [assumption|].
    destruct (Hin a E) as (s' & Hs' & Hc).
    rewrite Hs in Hs'. injection Hs' as <-. exact Hc.
  - apply mem_false in E. rewrite (Hout a E) in Hs. discriminate.
Qed.

(** ** The closure map against [ask_full_inference] *)

Lemma entailed_Satisfiable cnf key other :
  entailed cnf key other = true <->
  Satisfiable (And [cnf; key; other]) /\ ~ Satisfiable (And [cnf; key; Not other]).
Proof.
  unfold entailed.
  rewrite andb_true_iff, negb_true_iff, !sat_check_And_.
  rewrite sat_check_Satisfiable, sat_check_unsat, Satisfiable_Not_. tauto.
Qed.

Lemma ask_full_inference_False P A K :
  ~ Satisfiable (And [K; A; P]) ->
  value (ask_full_inference P A K) = Ok (Some false).
Proof.
  intros H. rewrite value_ask_full_inference.
  apply sat_check_unsat in H. now rewrite H.
Qed.

Lemma ask_full_inference_True P A K :
  Satisfiable (And [K; A; P]) -> ~ Satisfiable (And [K; A; Not P]) ->
  value (ask_full_inference P A K) = Ok (Some true).
Proof.
  intros H1 H2. rewrite value_ask_full_inference.
  apply sat_check_Satisfiable in H1. apply sat_check_unsat in H2.
  now rewrite H1, H2.
Qed.

Lemma ask_full_inference_self a cnf :
  (Satisfiable (And [cnf; a]) ->
   value (ask_full_inference a a cnf) = Ok (Some true)) /\
  (~ Satisfiable (And [cnf; a]) ->
   value (ask_full_inference a a cnf) = Ok (Some false)).
Proof.
  split; intros H.
  - apply ask_full_inference_True.
    + destruct H as [v Hv]. exists v. simpl in *.
      destruct (eval v cnf), (eval v a); auto.
    + intros [v Hv]. simpl in Hv.
      destruct (eval v cnf), (eval v a); discriminate.
  - apply ask_full_inference_False.
    intros [v Hv]. apply H. exists v. simpl in *.
    destruct (eval v cnf), (eval v a); auto.
Qed.

Lemma ask_full_inference_negated_entry a b cnf :
  Not b = a \/ entailed cnf a (Not b) = true ->
  value (ask_full_inference b a cnf) = Ok (Some false).
Proof.
  intros H. apply ask_full_inference_False. intros [v Hv].
  destruct H as [<- | H].
  - simpl in Hv. destruct (eval v cnf), (eval v b); discriminate.
  - apply entailed_Satisfiable in H. destruct H as [_ H]. apply H.
    exists v. simpl in *. now rewrite negb_involutive.
Qed.

(** C2, as the code has it.  In the map built by [single_fact_lookup]
    from [cnf]: every member [b] of [closureMap[a]] other than [a]
    itself has [ask_full_inference(b, a, cnf)] return [True]; [a] is
    always a member of its own entry, and [ask_full_inference(a, a, cnf)]
    returns [True] when [cnf & a] is satisfiable and [False] when it is
    not; and whenever a negation [~b] is a member of [closureMap[a]],
    [ask_full_inference(b, a, cnf)] returns [False]. *)
Theorem closure_map_sound (keys : list Basic) (cnf : Basic) (m : dict)
  (a : Basic) (s : list Basic) :
  value (single_fact_lookup keys cnf) = Ok m ->
  dict_lookup m a = Some s ->
  (forall b, In b s -> b <> a ->
     value (ask_full_inference b a cnf) = Ok (Some true)) /\
  In a s /\
  (Satisfiable (And [cnf; a]) ->
     value (ask_full_inference a a cnf) = Ok (Some true)) /\
  (~ Satisfiable (And [cnf; a]) ->
     value (ask_full_inference a a cnf) = Ok (Some false)) /\
  (forall b, In (Not b) s ->
     value (ask_full_inference b a cnf) = Ok (Some false)).
Proof.
  intros Hv Hs.
  destruct (single_fact_lookup_entry keys cnf m a s Hv Hs) as [Ha Hc].
  unfold closure_of in Hc.
  split; [|split; [|split; [|split]]].
  - intros b Hb Hne. apply Hc in Hb.
    destruct Hb as [-> | (_ & _ & He)]; [contradiction|].
    now apply entailed_value.
  - apply Hc. now left.
  - apply ask_full_inference_self.
  - apply ask_full_inference_self.
  - intros b Hb. apply Hc in Hb. apply ask_full_inference_negated_entry.
    destruct Hb as [-> | (_ & _ & He)]; auto.
Qed.

Lemma closure_map_sound_witness :
  value (ask_full_inference Q.rational Q.integer (Or [Not Q.integer; Q.rational]))
    = Ok (Some true).
Proof.
  refine (proj1 (closure_map_sound [Q.integer; Q.rational]
                   (Or [Not Q.integer; Q.rational])
                   [(Q.integer, [Q.integer; Q.rational]); (Q.rational, [Q.rational])]
                   Q.integer [Q.integer; Q.rational] _ _) Q.rational _ _).
  - vm_compute. reflexivity.
  - vm_compute. reflexivity.
  - simpl. auto.
  - discriminate.
Defined.

(** C2 fails as stated: with the single key [even] and the knowledge
    [~even], [even] is a member of [closureMap[even]], yet
    [ask_full_inference(even, even, cnf)] returns [False]. *)
Lemma closure_map_reflexive_entry_counterexample :
  value (single_fact_lookup [Q.even] (Not Q.even)) = Ok [(Q.even, [Q.even])] /\
  dict_lookup [(Q.even, [Q.even])] Q.even = Some [Q.even] /\
  In Q.even [Q.even] /\
  value (ask_full_inference Q.even Q.even (Not Q.even)) = Ok (Some false) /\
  value (ask_full_inference Q.even Q.even (Not Q.even)) <> Ok (Some true).
Proof.
  repeat split; try (vm_compute; reflexivity).
  - now left.
  - vm_compute. discriminate.
Qed.

Lemma closure_members_Predicate keys cnf k s :
  Forall (fun x => is_Predicate x = true) keys ->
  In k keys ->
  closure_of cnf keys k s ->
  forall x, In x s -> is_Predicate x = true.
Proof.
  intros Hall Hk Hc x Hx. rewrite Forall_forall in Hall.
  apply Hc in Hx. destruct Hx as [-> | (Hin & _)]; auto.
Qed.

(** C6, as the code has it.  For predicate keys, [single_fact_lookup]
    returns a map in which [closureMap[k]] holds [k] itself and exactly
    the other keys [k'] for which [ask_full_inference(k', k, cnf)]
    returns [True]; no negation [~k'] is ever a member, whatever
    [ask_full_inference(k', k, cnf)] returns. *)
Theorem closure_map_positive_only (keys : list Basic) (cnf : Basic) :
  Forall (fun k => is_Predicate k = true) keys ->
  exists m,
    value (single_fact_lookup keys cnf) = Ok m /\
    forall k, In k keys ->
      exists s,
        dict_lookup m k = Some s /\
        (forall x, In x s <->
           x = k \/ (In x keys /\ x <> k /\
                     value (ask_full_inference x k cnf) = Ok (Some true))) /\
        (forall k', ~ In (Not k') s).
Proof.
  intros Hall.
  destruct (single_fact_lookup_spec keys cnf) as (m & Hv & Hin & _).
  exists m. split; [assumption|]. intros k Hk.
  destruct (Hin k Hk) as (s & Hs & Hc).
  exists s. split; [assumption|]. split.
  - intros x. rewrite (Hc x), entailed_value. tauto.
  - intros k' Hn.
    pose proof (closure_members_Predicate keys cnf k s Hall Hk Hc _ Hn) as Hp.
    discriminate.
Qed.

Lemma closure_map_positive_only_witness :
  exists m,
    value (single_fact_lookup [Q.even; Q.odd] (Or [Not Q.even; Not Q.odd])) = Ok m /\
    forall k, In k [Q.even; Q.odd] ->
      exists s,
        dict_lookup m k = Some s /\
        (forall x, In x s <->
           x = k \/ (In x [Q.even; Q.odd] /\ x <> k /\
                     value (ask_full_inference x k (Or [Not Q.even; Not Q.odd]))
                       = Ok (Some true))) /\
        (forall k', ~ In (Not k') s).
Proof.
  apply (closure_map_positive_only [Q.even; Q.odd] (Or [Not Q.even; Not Q.odd])).
  repeat constructor.
Defined.

(** C6 fails as stated: with the keys [even] and [odd] and the
    knowledge [~even | ~odd], [ask_full_inference(odd, even, cnf)]
    returns [False], but [closureMap[even]] is [{even}]: [~odd] is not a
    member. *)
Lemma closure_map_negated_entailment_counterexample :
  value (ask_full_inference Q.odd Q.even (Or [Not Q.even; Not Q.odd]))
    = Ok (Some false) /\
  value (single_fact_lookup [Q.even; Q.odd] (Or [Not Q.even; Not Q.odd]))
    = Ok [(Q.even, [Q.even]); (Q.odd, [Q.odd])] /\
  dict_lookup [(Q.even, [Q.even]); (Q.odd, [Q.odd])] Q.even = Some [Q.even] /\
  ~ In (Not Q.odd) [Q.even].
Proof.
  repeat split; try (vm_compute; reflexivity).
  intros [H | []]. discriminate.
Qed.

(** ** [compute_known_facts] on unsatisfiable axioms *)

Lemma entailed_unsatisfiable cnf key other :
  ~ Satisfiable cnf -> entailed cnf key other = false.
Proof.
  intros H. unfold entailed. rewrite sat_check_And_.
  replace (sat_check (And [cnf; key; other])) with false; [reflexivity|].
  symmetry. apply sat_check_unsat. intros [v Hv]. apply H. exists v.
  simpl in Hv. now destruct (eval v cnf).
Qed.

Lemma single_fact_inner_unsatisfiable key cnf others :
  ~ Satisfiable cnf ->
  forall m, value (single_fact_inner key others cnf m) = Ok m.
Proof.
  intros Hu. induction others as [|o rest IH]; intros m; [reflexivity|].
  rewrite single_fact_inner_unfold.
  destruct (negb (Basic_eqb o key)); [|apply IH].
  destruct (truthy_ask_full_inference o key cnf) as (r & Hr & Ht).
  rewrite value_bind, Hr.
  rewrite (entailed_unsatisfiable cnf key o Hu) in Ht. rewrite Ht. apply IH.
Qed.

Lemma single_fact_outer_unsatisfiable all cnf keys :
  ~ Satisfiable cnf ->
  forall m, exists m',
    value (single_fact_outer keys all cnf m) = Ok m' /\
    forall k, dict_lookup m' k = if mem k keys then Some [k] else dict_lookup m k.
Proof.
  intros Hu. induction keys as [|key rest IH]; intros m.
  - exists m. split; reflexivity.
  - cbn [single_fact_outer].
    rewrite value_bind, (single_fact_inner_unsatisfiable key cnf all Hu).
    destruct (IH (dict_set m key [key])) as (m' & Hv & Hl).
    exists m'. split; [assumption|]. intros k. rewrite Hl.
    unfold mem. cbn [existsb]. fold (mem k rest).
    destruct (mem k rest) eqn:E; [now rewrite orb_true_r|].
    rewrite orb_false_r. destruct (Basic_eqb k key) eqn:Ek.
    + apply Basic_eqb_eq in Ek. subst. apply dict_lookup_set_same.
    + apply Basic_eqb_neq in Ek. now apply dict_lookup_set_other.
Qed.

(** C7, as the code has it.  [compute_known_facts] makes no check of
    the axioms as a whole and has no contradictory-axioms condition: on
    an unsatisfiable axiom set (whose CNF is a formula object)
    compilation returns normally, with the clauses of the CNF and a
    closure map in which every key is paired with itself alone. *)
Theorem compute_known_facts_unsatisfiable (to_cnf : Basic -> Basic)
  (known_facts : Basic) (known_facts_keys : list Basic) :
  (forall v, eval v (to_cnf known_facts) = eval v known_facts) ->
  ~ Satisfiable known_facts ->
  to_cnf known_facts <> BTrue ->
  to_cnf known_facts <> BFalse ->
  exists m,
    value (compute_known_facts to_cnf known_facts known_facts_keys)
      = Ok (args_of (to_cnf known_facts), m) /\
    forall k, dict_lookup m k = if mem k known_facts_keys then Some [k] else None.
Proof.
  intros Heq Hu HT HF.
  assert (Hu' : ~ Satisfiable (to_cnf known_facts)).
  { intros [v Hv]. apply Hu. exists v. now rewrite <- Heq. }
  destruct (single_fact_outer_unsatisfiable known_facts_keys (to_cnf known_facts)
              known_facts_keys Hu' []) as (m & Hv & Hl).
  exists m. split; [|exact Hl].
  unfold compute_known_facts. rewrite value_bind.
  assert (Hg : value (get_args (to_cnf known_facts))
               = Ok (args_of (to_cnf known_facts))).
  { destruct (to_cnf known_facts); try reflexivity; congruence. }
  rewrite Hg. rewrite value_bind. unfold single_fact_lookup. rewrite Hv.
  reflexivity.
Qed.

Lemma compute_known_facts_unsatisfiable_witness :
  exists m,
    value (compute_known_facts (fun f => f)
             (And [Or [Q.even; Q.odd]; Not Q.even; Not Q.odd]) [Q.even; Q.odd])
      = Ok ([Or [Q.even; Q.odd]; Not Q.even; Not Q.odd], m) /\
    forall k, dict_lookup m k = if mem k [Q.even; Q.odd] then Some [k] else None.
Proof.
  apply (compute_known_facts_unsatisfiable (fun f => f)
           (And [Or [Q.even; Q.odd]; Not Q.even; Not Q.odd]) [Q.even; Q.odd]).
  - reflexivity.
  - apply sat_check_unsat. vm_compute. reflexivity.
  - discriminate.
  - discriminate.
Defined.

(** C7 fails as stated: the axioms [(even | odd) & ~even & ~odd], which
    are already in CNF, are unsatisfiable, and compilation returns a
    closure map for them without any error. *)
Lemma compute_known_facts_contradictory_counterexample :
  ~ Satisfiable (And [Or [Q.even; Q.odd]; Not Q.even; Not Q.odd]) /\
  compute_known_facts (fun f => f)
    (And [Or [Q.even; Q.odd]; Not Q.even; Not Q.odd]) [Q.even; Q.odd]
  = ([SatCall (And [Or [Q.even; Q.odd]; Not Q.even; Not Q.odd; Q.even; Q.odd]);
      SatCall (And [Or [Q.even; Q.odd]; Not Q.even; Not Q.odd; Q.odd; Q.even])],
     Ok ([Or [Q.even; Q.odd]; Not Q.even; Not Q.odd],
         [(Q.even, [Q.even]); (Q.odd, [Q.odd])])).
Proof.
  split.
  - apply sat_check_unsat. vm_compute. reflexivity.
  - vm_compute. reflexivity.
Qed.

(** ** [ask] *)

Lemma key_expr_Predicate prop : exists f, fst (key_expr prop) = Predicate f.
Proof. destruct prop; eexists; reflexivity. Qed.

Lemma Not__key prop : Not_ (fst (key_expr prop)) = Not (fst (key_expr prop)).
Proof. destruct (key_expr_Predicate prop) as [f ->]. reflexivity. Qed.

Section ResolverFacts.

Variable _eval_ask : Basic -> Basic -> result (option bool).
Variable known_facts_dict : dict.
Variable known_facts_cnf : Basic.

Local Abbreviation ask' := (ask _eval_ask known_facts_dict known_facts_cnf).
Local Abbreviation ask_lookup' := (ask_lookup known_facts_dict).
Local Abbreviation ask_conjuncts' := (ask_conjuncts known_facts_dict).

Lemma value_dict_getitem k :
  value (dict_getitem known_facts_dict k) =
  match dict_lookup known_facts_dict k with
  | Some s => Ok s
  | None => Raise KeyError
  end.
Proof.
  unfold dict_getitem. rewrite value_bind. cbn [value tell snd].
  now destruct (dict_lookup known_facts_dict k).
Qed.

Lemma value_all_in_dict args :
  value (all_in_dict known_facts_dict args) = Ok (forallb (has_key known_facts_dict) args).
Proof.
  induction args as [|k r IH]; [reflexivity|].
  cbn [all_in_dict forallb]. rewrite value_bind.
  unfold dict_contains at 1. rewrite value_bind. cbn [value tell snd ret].
  fold (has_key known_facts_dict k).
  destruct (has_key known_facts_dict k); [exact IH | reflexivity].
Qed.

(** The two membership tests made on a closure-map entry. *)
Lemma value_lookup_tests (k key : Basic) (yes no : bool) (rest : M (option bool)) s :
  dict_lookup known_facts_dict k = Some s ->
  value (s1 <- dict_getitem known_facts_dict k ;;
         if mem key s1 then ret (Some yes)
         else
           s2 <- dict_getitem known_facts_dict k ;;
           if mem (Not_ key) s2 then ret (Some no)
           else rest) =
  if mem key s then Ok (Some yes)
  else if mem (Not_ key) s then Ok (Some no)
       else value rest.
Proof.
  intros Hs. rewrite value_bind, value_dict_getitem, Hs.
  destruct (mem key s); [reflexivity|].
  rewrite value_bind, value_dict_getitem, Hs.
  now destruct (mem (Not_ key) s).
Qed.

Lemma value_ask_lookup_atom key a s :
  dict_lookup known_facts_dict (Predicate a) = Some s ->
  value (ask_lookup' key (Predicate a)) =
  Ok (if mem key s then Some true
      else if mem (Not_ key) s then Some false else None).
Proof.
  intros Hs. unfold ask_lookup. rewrite value_bind. cbn [is_Atom value ret snd].
  rewrite (value_lookup_tests (Predicate a) key true false (ret None) s Hs).
  destruct (mem key s); [reflexivity|]. now destruct (mem (Not_ key) s).
Qed.

Lemma value_ask_lookup_atom_missing key a :
  dict_lookup known_facts_dict (Predicate a) = None ->
  value (ask_lookup' key (Predicate a)) = Raise KeyError.
Proof.
  intros Hs. unfold ask_lookup. rewrite value_bind. cbn [is_Atom value ret snd].
  now rewrite value_bind, value_dict_getitem, Hs.
Qed.

(** One turn of the loop over the conjuncts, on an atomic conjunct that
    has an entry. *)
Lemma value_ask_conjuncts_step key c post s :
  is_literal c = true ->
  dict_lookup known_facts_dict c = Some s ->
  value (ask_conjuncts' key (c :: post)) =
  if mem key s then Ok (Some (is_Predicate c))
  else if mem (Not_ key) s then Ok (Some (negb (is_Predicate c)))
       else value (ask_conjuncts' key post).
Proof.
  intros Hl Hs. destruct c; try discriminate.
  - cbn [ask_conjuncts]. rewrite value_bind. cbn [is_Atom value ret snd is_Predicate negb].
    apply (value_lookup_tests _ key true false _ s Hs).
  - destruct c; try discriminate.
    cbn [ask_conjuncts]. rewrite value_bind. cbn [is_Atom value ret snd].
    rewrite value_bind. cbn [is_Atom value ret snd is_Predicate negb].
    apply (value_lookup_tests _ key false true _ s Hs).
Qed.

Lemma no_hit_mem key c s :
  no_hit known_facts_dict key c ->
  dict_lookup known_facts_dict c = Some s ->
  mem key s = false /\ mem (Not key) s = false.
Proof.
  intros Hn Hs. destruct (Hn s Hs) as [H1 H2].
  split; apply mem_false; assumption.
Qed.

Lemma value_ask_conjuncts_skip key pre rest :
  is_Predicate key = true ->
  Forall (fun c => is_literal c = true) pre ->
  Forall (fun c => has_key known_facts_dict c = true) pre ->
  Forall (no_hit known_facts_dict key) pre ->
  value (ask_conjuncts' key (pre ++ rest)) = value (ask_conjuncts' key rest).
Proof.
  intros Hkey Hl Hk Hn. induction pre as [|c pre IH]; [reflexivity|].
  apply Forall_cons_iff in Hl. destruct Hl as [Hl1 Hl].
  apply Forall_cons_iff in Hk. destruct Hk as [Hk1 Hk].
  apply Forall_cons_iff in Hn. destruct Hn as [Hn1 Hn].
  unfold has_key in Hk1.
  destruct (dict_lookup known_facts_dict c) as [s|] eqn:Hs; [|discriminate].
  cbn [app]. rewrite (value_ask_conjuncts_step key c (pre ++ rest) s Hl1 Hs).
  destruct (no_hit_mem key c s Hn1 Hs) as [M1 M2].
  replace (Not_ key) with (Not key) by (destruct key; try discriminate; reflexivity).
  rewrite M1, M2. apply IH; assumption.
Qed.

(** Where [ask] stands once the handlers have no opinion and the
    extracted facts are [local_facts]. *)
Lemma value_ask_facts prop assum ctx local_facts :
  _eval_ask (apply_key (fst (key_expr prop)) (snd (key_expr prop)))
            (And_ [assum; And_ ctx]) = Ok None ->
  value (_extract_facts (And_ [assum; And_ ctx]) (snd (key_expr prop)))
    = Ok (Some local_facts) ->
  local_facts <> BTrue ->
  value (ask' prop assum ctx) =
  match value (ask_lookup' (fst (key_expr prop)) local_facts) with
  | Ok (Some b) => Ok (Some b)
  | Ok None => value (ask_full_inference (fst (key_expr prop)) local_facts known_facts_cnf)
  | Raise e => Raise e
  end.
Proof.
  unfold ask. destruct (key_expr prop) as [key expr]. cbn [fst snd]. cbv zeta.
  generalize (And_ [assum; And_ ctx]) as A. intros A Hh He Hne.
  rewrite value_bind. unfold lift at 1. cbn [value snd]. rewrite Hh.
  destruct A; try (now (cbn in He; discriminate));
    rewrite value_bind, He;
    (destruct local_facts; try congruence;
     rewrite value_bind;
     match goal with
     | |- context [value (ask_lookup' ?k ?l)] =>
         destruct (value (ask_lookup' k l)) as [[b|]|e]; reflexivity
     end).
Qed.

(** C3. When the handlers of the key return a definite [True] or
    [False] for the proposition, [ask] returns that value at once: it
    makes no access to the closure map and no satisfiability call (the
    log is empty). *)
Theorem ask_direct_evaluation (prop assum : Basic) (ctx : list Basic) (b : bool) :
  _eval_ask (apply_key (fst (key_expr prop)) (snd (key_expr prop)))
            (And_ [assum; And_ ctx]) = Ok (Some b) ->
  ask' prop assum ctx = ([], Ok (Some b)).
Proof.
  intros H. unfold ask. destruct (key_expr prop) as [key expr].
  cbn [fst snd] in H. cbv zeta. rewrite H. reflexivity.
Qed.

(** C4. When the handlers have no opinion and the facts extracted for
    the target object are the single key [a], which has an entry in the
    closure map: [ask] returns [True] if the queried key is in
    [closureMap[a]], else [False] if the negation of the queried key is
    in [closureMap[a]], and else what the full inference returns. *)
Theorem ask_single_key_lookup (prop assum : Basic) (ctx : list Basic)
  (a : string) (s : list Basic) :
  _eval_ask (apply_key (fst (key_expr prop)) (snd (key_expr prop)))
            (And_ [assum; And_ ctx]) = Ok None ->
  value (_extract_facts (And_ [assum; And_ ctx]) (snd (key_expr prop)))
    = Ok (Some (Predicate a)) ->
  dict_lookup known_facts_dict (Predicate a) = Some s ->
  (In (fst (key_expr prop)) s ->
     value (ask' prop assum ctx) = Ok (Some true)) /\
  (~ In (fst (key_expr prop)) s -> In (Not (fst (key_expr prop))) s ->
     value (ask' prop assum ctx) = Ok (Some false)) /\
  (~ In (fst (key_expr prop)) s -> ~ In (Not (fst (key_expr prop))) s ->
     value (ask' prop assum ctx) =
     value (ask_full_inference (fst (key_expr prop)) (Predicate a) known_facts_cnf)).
Proof.
  intros Hh He Hs.
  rewrite (value_ask_facts prop assum ctx _ Hh He) by discriminate.
  rewrite (value_ask_lookup_atom _ _ _ Hs), Not__key.
  split; [|split].
  - intros H. apply mem_In in H. now rewrite H.
  - intros H1 H2. apply mem_false in H1. apply mem_In in H2. now rewrite H1, H2.
  - intros H1 H2. apply mem_false in H1. apply mem_false in H2. now rewrite H1, H2.
Qed.

Lemma forallb_has_key_Forall args :
  forallb (has_key known_facts_dict) args = true <->
  Forall (fun c => has_key known_facts_dict c = true) args.
Proof. rewrite forallb_forall, Forall_forall. tauto. Qed.

Lemma value_ask_lookup_And key args :
  value (ask_lookup' key (And args)) =
  if forallb (has_key known_facts_dict) args
  then value (ask_conjuncts' key args)
  else Ok None.
Proof.
  unfold ask_lookup. rewrite value_bind. cbn [is_Atom value ret snd].
  rewrite value_bind, value_all_in_dict.
  now destruct (forallb (has_key known_facts_dict) args).
Qed.

(** C5, as the code has it.  When the handlers have no opinion and the
    extracted facts are a conjunction of atomic conjuncts:
    if every conjunct is a key of the closure map, the conjuncts are
    examined in order, each through its own entry [closureMap[c]], and
    the first entry that mentions the queried key decides: for a positive
    conjunct [a], [True] if [key] is in [closureMap[a]] and [False] if
    [~key] is; for a negated conjunct [~a] the entry is [closureMap[~a]]
    and the roles are swapped, [False] if [key] is in [closureMap[~a]]
    and [True] if [~key] is; when no entry mentions the key the full
    inference decides.  If some conjunct is not a key of the closure map,
    no entry is examined and the full inference decides. *)
Theorem ask_conjunction_lookup (prop assum : Basic) (ctx args : list Basic) :
  _eval_ask (apply_key (fst (key_expr prop)) (snd (key_expr prop)))
            (And_ [assum; And_ ctx]) = Ok None ->
  value (_extract_facts (And_ [assum; And_ ctx]) (snd (key_expr prop)))
    = Ok (Some (And args)) ->
  Forall (fun c => is_literal c = true) args ->
  (Forall (fun c => has_key known_facts_dict c = true) args ->
   forall pre c post s,
     args = pre ++ c :: post ->
     Forall (no_hit known_facts_dict (fst (key_expr prop))) pre ->
     dict_lookup known_facts_dict c = Some s ->
     (forall a, c = Predicate a ->
        (In (fst (key_expr prop)) s ->
           value (ask' prop assum ctx) = Ok (Some true)) /\
        (~ In (fst (key_expr prop)) s -> In (Not (fst (key_expr prop))) s ->
           value (ask' prop assum ctx) = Ok (Some false))) /\
     (forall a, c = Not (Predicate a) ->
        (In (fst (key_expr prop)) s ->
           value (ask' prop assum ctx) = Ok (Some false)) /\
        (~ In (fst (key_expr prop)) s -> In (Not (fst (key_expr prop))) s ->
           value (ask' prop assum ctx) = Ok (Some true)))) /\
  (Forall (fun c => has_key known_facts_dict c = true) args ->
   Forall (no_hit known_facts_dict (fst (key_expr prop))) args ->
   value (ask' prop assum ctx) =
   value (ask_full_inference (fst (key_expr prop)) (And args) known_facts_cnf)) /\
  (~ Forall (fun c => has_key known_facts_dict c = true) args ->
   value (ask' prop assum ctx) =
   value (ask_full_inference (fst (key_expr prop)) (And args) known_facts_cnf)).
Proof.
  intros Hh He Hlit.
  rewrite (value_ask_facts prop assum ctx _ Hh He) by discriminate.
  rewrite value_ask_lookup_And.
  assert (Hkey : is_Predicate (fst (key_expr prop)) = true).
  { destruct (key_expr_Predicate prop) as [f ->]. reflexivity. }
  split; [|split].
  - intros Hall pre c post s -> Hpre Hs.
    rewrite (proj2 (forallb_has_key_Forall _) Hall).
    apply Forall_app in Hlit. destruct Hlit as [Hl1 Hl2].
    apply Forall_app in Hall. destruct Hall as [Ha1 Ha2].
    rewrite (value_ask_conjuncts_skip _ _ (c :: post) Hkey Hl1 Ha1 Hpre).
    apply Forall_cons_iff in Hl2. destruct Hl2 as [Hc _].
    rewrite (value_ask_conjuncts_step _ c post s Hc Hs).
    rewrite Not__key.
    split; intros a ->; cbn [is_Predicate negb]; split.
    + intros M1. apply mem_In in M1. now rewrite M1.
    + intros M1 M2. apply mem_false in M1. apply mem_In in M2. now rewrite M1, M2.
    + intros M1. apply mem_In in M1. now rewrite M1.
    + intros M1 M2. apply mem_false in M1. apply mem_In in M2. now rewrite M1, M2.
  - intros Hall Hno.
    rewrite (proj2 (forallb_has_key_Forall _) Hall).
    rewrite <- (app_nil_r args) at 1.
    rewrite (value_ask_conjuncts_skip _ args [] Hkey Hlit Hall Hno).
    reflexivity.
  - intros Hnot.
    destruct (forallb (has_key known_facts_dict) args) eqn:E; [|reflexivity].
    apply forallb_has_key_Forall in E. contradiction.
Qed.

(** A single extracted key without an entry in the closure map stops
    [ask] with [KeyError]. *)
Lemma ask_single_key_missing (prop assum : Basic) (ctx : list Basic) (a : string) :
  _eval_ask (apply_key (fst (key_expr prop)) (snd (key_expr prop)))
            (And_ [assum; And_ ctx]) = Ok None ->
  value (_extract_facts (And_ [assum; And_ ctx]) (snd (key_expr prop)))
    = Ok (Some (Predicate a)) ->
  dict_lookup known_facts_dict (Predicate a) = None ->
  value (ask' prop assum ctx) = Raise KeyError.
Proof.
  intros Hh He Hs.
  rewrite (value_ask_facts prop assum ctx _ Hh He) by discriminate.
  now rewrite (value_ask_lookup_atom_missing _ _ Hs).
Qed.

(** A negated proposition is not an applied predicate: [ask] asks the
    key [is_true] about it, and when the handlers of [is_true] have no
    opinion and the assumptions do not mention the negated proposition,
    the answer is [None]. *)
Lemma ask_negation_without_handler (P assum : Basic) (ctx : list Basic) :
  _eval_ask (AppliedPredicate "is_true" (Not P)) (And_ [assum; And_ ctx]) = Ok None ->
  value (_extract_facts (And_ [assum; And_ ctx]) (Not P)) = Ok None ->
  value (ask' (Not P) assum ctx) = Ok None.
Proof.
  intros Hh He. unfold ask, key_expr, Q.is_true, apply_key, sympify.
  cbv beta iota zeta.
  rewrite value_bind. unfold lift at 1. cbn [value snd]. rewrite Hh.
  destruct (And_ [assum; And_ ctx]); try reflexivity;
    rewrite value_bind, He; reflexivity.
Qed.

End ResolverFacts.

(** ** The theorems on the small knowledge base *)

Lemma small_dict_compiled :
  value (single_fact_lookup small_keys small_cnf) = Ok small_dict.
Proof. vm_compute. reflexivity. Qed.

Lemma known_facts_keys_algebraic :
  In (Predicate "algebraic") known_facts_keys /\ length known_facts_keys = 29.
Proof. vm_compute. split; [tauto | reflexivity]. Qed.

(** The axioms of the knowledge base are satisfiable: they hold when
    every predicate is false. *)
Lemma known_facts_satisfiable : Satisfiable known_facts.
Proof. exists (fun _ => false). reflexivity. Qed.

Lemma ask_direct_evaluation_witness :
  ask literal_handlers small_dict small_cnf
    (AppliedPredicate "integer" (Integer 7)) BTrue [] = ([], Ok (Some true)).
Proof.
  apply (ask_direct_evaluation literal_handlers small_dict small_cnf
           (AppliedPredicate "integer" (Integer 7)) BTrue [] true).
  reflexivity.
Defined.

Lemma ask_single_key_lookup_witness :
  value (ask no_opinion small_dict small_cnf
           (AppliedPredicate "rational" sym_x) (AppliedPredicate "integer" sym_x) [])
    = Ok (Some true).
Proof.
  refine (proj1 (ask_single_key_lookup no_opinion small_dict small_cnf
                   (AppliedPredicate "rational" sym_x) (AppliedPredicate "integer" sym_x) []
                   "integer" [Q.integer; Q.rational] _ _ _) _).
  - reflexivity.
  - vm_compute. reflexivity.
  - reflexivity.
  - simpl. auto.
Defined.

Lemma ask_conjunction_lookup_witness :
  value (ask no_opinion negated_dict small_cnf
           (AppliedPredicate "rational" sym_x)
           (And [AppliedPredicate "integer" sym_x; Not (AppliedPredicate "prime" sym_x)]) [])
    = Ok (Some true).
Proof.
  refine (proj1 (proj1 (proj1 (ask_conjunction_lookup no_opinion negated_dict small_cnf
                   (AppliedPredicate "rational" sym_x)
                   (And [AppliedPredicate "integer" sym_x; Not (AppliedPredicate "prime" sym_x)])
                   [] [Q.integer; Not Q.prime] _ _ _) _
                   [] Q.integer [Not Q.prime] [Q.integer; Q.rational] _ _ _)
                   "integer" _) _).
  - reflexivity.
  - vm_compute. reflexivity.
  - repeat constructor.
  - repeat constructor.
  - reflexivity.
  - constructor.
  - reflexivity.
  - reflexivity.
  - simpl. auto.
Defined.

(** C5 fails as stated.  With the closure map compiled from the small
    knowledge base, [rational] is in [closureMap[integer]] and the
    extracted facts are [~integer & ~prime], but [ask] does not return
    [False]: [~integer] is not a key of the map, the tier is skipped and
    the full inference returns [None].  With a map that has entries for
    the negated conjuncts, the entry examined for [~integer] is
    [closureMap[~integer]], not [closureMap[integer]], and the answer is
    [None] again. *)
Lemma ask_negated_conjunct_counterexample :
  dict_lookup small_dict Q.integer = Some [Q.integer; Q.rational] /\
  In Q.rational [Q.integer; Q.rational] /\
  value (_extract_facts
           (And_ [And [Not (AppliedPredicate "integer" sym_x);
                       Not (AppliedPredicate "prime" sym_x)]; And_ []]) sym_x)
    = Ok (Some (And [Not Q.integer; Not Q.prime])) /\
  ask no_opinion small_dict small_cnf (AppliedPredicate "rational" sym_x)
    (And [Not (AppliedPredicate "integer" sym_x); Not (AppliedPredicate "prime" sym_x)]) []
  = ([DictContains (Not Q.integer);
      SatCall (And [Or [Not Q.integer; Q.rational]; Or [Not Q.prime; Q.integer];
                    Not Q.integer; Not Q.prime; Q.rational]);
      SatCall (And [Or [Not Q.integer; Q.rational]; Or [Not Q.prime; Q.integer];
                    Not Q.integer; Not Q.prime; Not Q.rational])],
     Ok None) /\
  dict_lookup negated_dict Q.integer = Some [Q.integer; Q.rational] /\
  value (ask no_opinion negated_dict small_cnf (AppliedPredicate "rational" sym_x)
           (And [Not (AppliedPredicate "integer" sym_x);
                 Not (AppliedPredicate "prime" sym_x)]) [])
    = Ok None.
Proof.
  repeat split; try (vm_compute; reflexivity).
  simpl. auto.
Qed.

(** C9 on the code: a predicate registered after the knowledge base was
    compiled has no entry in the closure map; when it is the single
    extracted fact, [ask] stops with [KeyError] at
    [known_facts_dict[local_facts]] and reaches no later tier. *)
Theorem ask_unregistered_predicate_KeyError :
  registry_lookup (register_handler Q_loaded "mersenne" "MersenneHandler") "mersenne"
    = Some ["MersenneHandler"] /\
  dict_lookup small_dict (Predicate "mersenne") = None /\
  value (_extract_facts (And_ [AppliedPredicate "mersenne" sym_x; And_ []]) sym_x)
    = Ok (Some (Predicate "mersenne")) /\
  ask no_opinion small_dict small_cnf
    (AppliedPredicate "integer" sym_x) (AppliedPredicate "mersenne" sym_x) []
  = ([DictGet (Predicate "mersenne")], Raise KeyError).
Proof.
  repeat split; vm_compute; reflexivity.
Qed.

(** The conjunction tier does test membership first: with the same
    unregistered predicate among the conjuncts, [ask] does not raise and
    the full inference answers. *)
Lemma ask_unregistered_conjunct_guarded :
  value (ask no_opinion small_dict small_cnf (AppliedPredicate "rational" sym_x)
           (And [AppliedPredicate "mersenne" sym_x; AppliedPredicate "integer" sym_x]) [])
    = Ok (Some true).
Proof. vm_compute. reflexivity. Qed.

(** Under the assumption [~integer(x) | real(x)], whatever the handlers
    are, as long as they have no opinion on [integer(x)]: [ask] answers
    [None] for [integer(x)], and does not answer [None] for
    [~integer(x)]. *)
Lemma ask_negation_mentioned (h : Basic -> Basic -> result (option bool)) :
  h (AppliedPredicate "integer" sym_x) mentions_negation = Ok None ->
  value (ask h small_dict small_cnf
           (AppliedPredicate "integer" sym_x) mentions_negation []) = Ok None /\
  value (ask h small_dict small_cnf
           (Not (AppliedPredicate "integer" sym_x)) mentions_negation []) <> Ok None.
Proof.
  intros H. split.
  - rewrite (value_ask_facts h small_dict small_cnf
               (AppliedPredicate "integer" sym_x) mentions_negation []
               (Or [Not Q.integer; Q.real]) H).
    + vm_compute. reflexivity.
    + vm_compute. reflexivity.
    + discriminate.
  - unfold ask, key_expr, Q.is_true, apply_key, sympify. cbv beta iota zeta.
    change (And_ [mentions_negation; And_ []]) with mentions_negation.
    rewrite value_bind. unfold lift at 1. cbn [value snd].
    destruct (h (AppliedPredicate "is_true" (Not (AppliedPredicate "integer" sym_x)))
                mentions_negation) as [[b|]|e].
    + discriminate.
    + vm_compute. discriminate.
    + discriminate.
Qed.

(** C8 on the code: with handlers that have no opinion, [ask] answers
    [None] for [integer(x)] under [~integer(x) | real(x)], but for the
    negated proposition [~integer(x)] it raises: [_extract_facts] finds
    the negated proposition itself in the assumptions and applies [Not]
    to no argument. *)
Theorem ask_negation_raises :
  value (ask no_opinion small_dict small_cnf
           (AppliedPredicate "integer" sym_x) mentions_negation []) = Ok None /\
  ask no_opinion small_dict small_cnf
    (Not (AppliedPredicate "integer" sym_x)) mentions_negation []
  = ([], Raise IndexError).
Proof. split; vm_compute; reflexivity. Qed.

(** ** [rewriterule] *)

Section RewriteFacts.

Variable substitution : Type.
Variable empty_substitution : substitution.
Variable unify : Basic -> Basic -> substitution -> list substitution.
Variable subs : substitution -> Basic -> Basic.
Variable rebuild : Basic -> Basic.
Variable is_Expr : Basic -> bool.

Local Abbreviation rewrite_matches' := (rewrite_matches subs rebuild is_Expr).
Local Abbreviation rewriterule' :=
  (rewriterule empty_substitution unify subs rebuild is_Expr).

(** What one match yields. *)
Local Abbreviation rewritten p2 m :=
  (if is_Expr (subs m p2) then rebuild (subs m p2) else subs m p2).

Lemma length_rewrite_matches p2 matches :
  length (rewrite_matches' p2 matches) = length matches.
Proof. induction matches as [|m r IH]; simpl; [reflexivity | now rewrite IH]. Qed.

Lemma nth_error_rewrite_matches p2 matches :
  forall i m,
    nth_error matches i = Some m ->
    nth_error (rewrite_matches' p2 matches) i = Some (rewritten p2 m).
Proof.
  induction matches as [|m0 r IH]; intros [|i] m H; simpl in *; try discriminate.
  - now injection H as ->.
  - now apply IH.
Qed.

(** C10. [rewriterule(p1, p2)(e)] yields one expression for each match
    of [unify(p1, e, {})], in the same order: the match's substitution
    applied to [p2], rebuilt when it is an [Expr]; it yields nothing
    when there is no match. *)
Theorem rewriterule_yields_per_match (p1 p2 expr : Basic) :
  length (rewriterule' p1 p2 expr) = length (unify p1 expr empty_substitution) /\
  (forall i m,
     nth_error (unify p1 expr empty_substitution) i = Some m ->
     nth_error (rewriterule' p1 p2 expr) i = Some (rewritten p2 m)) /\
  (unify p1 expr empty_substitution = [] -> rewriterule' p1 p2 expr = []).
Proof.
  unfold rewriterule, rewrite_rl. split; [|split].
  - apply length_rewrite_matches.
  - apply nth_error_rewrite_matches.
  - intros ->. reflexivity.
Qed.

End RewriteFacts.

Lemma rewriterule_yields_per_match_witness :
  nth_error
    (rewriterule [] sample_unify sample_subs (fun e => e) sample_is_Expr
       (Symbol "a") (Add [Symbol "a"; Integer 1]) (Integer 2)) 0
  = Some (Add [Integer 2; Integer 1]).
Proof.
  refine (proj1 (proj2 (rewriterule_yields_per_match
                          (list (string * Basic)) [] sample_unify sample_subs
                          (fun e => e) sample_is_Expr
                          (Symbol "a") (Add [Symbol "a"; Integer 1]) (Integer 2)))
                0 [("a", Integer 2)] _).
  reflexivity.
Defined.

(** ** Further properties of [ask_full_inference] *)

Lemma sat_check_equiv e1 e2 :
  (forall v, eval v e1 = eval v e2) -> sat_check e1 = sat_check e2.
Proof.
  intros H. apply eq_true_iff_eq. rewrite !sat_check_Satisfiable.
  unfold Satisfiable. split; intros [v Hv]; exists v; [rewrite <- H | rewrite H]; exact Hv.
Qed.

(** X1. [ask_full_inference] calls [satisfiable] once, on [K & A & P], when
    that conjunction is unsatisfiable, and otherwise twice, the second
    time on [K & A & ~P]; it makes no other call. *)
Theorem ask_full_inference_sat_calls (P A K : Basic) :
  (~ Satisfiable (And [K; A; P]) ->
   trace (ask_full_inference P A K) = [SatCall (And_ [K; A; P])]) /\
  (Satisfiable (And [K; A; P]) ->
   trace (ask_full_inference P A K)
   = [SatCall (And_ [K; A; P]); SatCall (And_ [K; A; Not_ P])]).
Proof.
  rewrite trace_ask_full_inference, sat_check_And_. split; intros H.
  - apply sat_check_unsat in H. now rewrite H.
  - apply sat_check_Satisfiable in H. now rewrite H.
Qed.

Lemma ask_full_inference_sat_calls_witness :
  trace (ask_full_inference Q.odd Q.even (Or [Not Q.even; Not Q.odd]))
  = [SatCall (And_ [Or [Not Q.even; Not Q.odd]; Q.even; Q.odd])].
Proof.
  apply (ask_full_inference_sat_calls Q.odd Q.even (Or [Not Q.even; Not Q.odd])).
  apply sat_check_unsat. vm_compute. reflexivity.
Defined.

(** X2. From inconsistent premises [ask_full_inference] answers [False] for
    every proposition, a proposition and its negation alike. *)
Theorem ask_full_inference_inconsistent_premises (P A K : Basic) :
  ~ Satisfiable (And [K; A]) ->
  value (ask_full_inference P A K) = Ok (Some false).
Proof.
  intros H. apply ask_full_inference_False. intros [v Hv]. apply H.
  exists v. simpl in *. destruct (eval v K), (eval v A); auto.
Qed.

Lemma ask_full_inference_inconsistent_premises_witness :
  value (ask_full_inference Q.real (And [Q.even; Q.odd]) (Or [Not Q.even; Not Q.odd]))
    = Ok (Some false) /\
  value (ask_full_inference (Not Q.real) (And [Q.even; Q.odd])
           (Or [Not Q.even; Not Q.odd]))
    = Ok (Some false).
Proof.
  split.
  - apply (ask_full_inference_inconsistent_premises Q.real (And [Q.even; Q.odd])
             (Or [Not Q.even; Not Q.odd])).
    apply sat_check_unsat. vm_compute. reflexivity.
  - apply (ask_full_inference_inconsistent_premises (Not Q.real) (And [Q.even; Q.odd])
             (Or [Not Q.even; Not Q.odd])).
    apply sat_check_unsat. vm_compute. reflexivity.
Defined.

(** X3. When the premises [K & A] are consistent, the answer for a negated
    proposition is the negation of the answer for the proposition:
    [True] and [False] are exchanged and [None] stays [None]. *)
Theorem ask_full_inference_negation (P A K : Basic) (r : option bool) :
  Satisfiable (And [K; A]) ->
  value (ask_full_inference P A K) = Ok r ->
  value (ask_full_inference (Not P) A K) = Ok (option_map negb r).
Proof.
  intros [v Hv]. rewrite !value_ask_full_inference.
  replace (sat_check (And [K; A; Not (Not P)])) with (sat_check (And [K; A; P])).
  - assert (Hor : sat_check (And [K; A; P]) = true \/
                  sat_check (And [K; A; Not P]) = true).
    { destruct (eval v P) eqn:E; [left | right];
        apply sat_check_Satisfiable; exists v; simpl in *;
        rewrite ?E; destruct (eval v K), (eval v A); auto. }
    destruct (sat_check (And [K; A; P])), (sat_check (And [K; A; Not P]));
      intros [= <-]; try reflexivity.
    destruct Hor; discriminate.
  - apply sat_check_equiv. intros w. simpl. now rewrite negb_involutive.
Qed.

Lemma ask_full_inference_negation_witness :
  value (ask_full_inference (Not Q.rational) Q.integer (Or [Not Q.integer; Q.rational]))
    = Ok (Some false).
Proof.
  apply (ask_full_inference_negation Q.rational Q.integer
           (Or [Not Q.integer; Q.rational]) (Some true)).
  - apply sat_check_Satisfiable. vm_compute. reflexivity.
  - vm_compute. reflexivity.
Defined.

(** X4. A definite answer survives further assumptions: [False] stays
    [False], and [True] stays [True] as long as the enlarged premises are
    consistent and turns into [False] when they are not.  It never
    becomes [None]. *)
Theorem ask_full_inference_more_assumptions (P A B K : Basic) :
  (value (ask_full_inference P A K) = Ok (Some false) ->
   value (ask_full_inference P (And [A; B]) K) = Ok (Some false)) /\
  (value (ask_full_inference P A K) = Ok (Some true) ->
   Satisfiable (And [K; A; B]) ->
   value (ask_full_inference P (And [A; B]) K) = Ok (Some true)) /\
  (value (ask_full_inference P A K) = Ok (Some true) ->
   ~ Satisfiable (And [K; A; B]) ->
   value (ask_full_inference P (And [A; B]) K) = Ok (Some false)).
Proof.
  rewrite (value_ask_full_inference P A K).
  split; [|split].
  - intros H. apply ask_full_inference_False. intros [v Hv].
    assert (Hs : sat_check (And [K; A; P]) = true).
    { apply sat_check_Satisfiable. exists v. simpl in *.
      destruct (eval v K), (eval v A), (eval v B), (eval v P);
        simpl in *; congruence. }
    rewrite Hs in H. destruct (sat_check (And [K; A; Not P])); discriminate.
  - intros H [v Hv].
    destruct (sat_check (And [K; A; P])) eqn:H1; [|discriminate].
    destruct (sat_check (And [K; A; Not P])) eqn:H2; [discriminate|].
    apply sat_check_unsat in H2.
    assert (HP : forall w, eval w K = true -> eval w A = true -> eval w P = true).
    { intros w HK HA. destruct (eval w P) eqn:E; [reflexivity|].
      exfalso. apply H2. exists w. simpl. now rewrite HK, HA, E. }
    apply ask_full_inference_True.
    + exists v. simpl in *.
      destruct (eval v K) eqn:EK, (eval v A) eqn:EA; try discriminate.
      rewrite (HP v EK EA). destruct (eval v B); simpl in *; congruence.
    + intros [w Hw]. simpl in Hw.
      destruct (eval w K) eqn:EK, (eval w A) eqn:EA; try discriminate.
      rewrite (HP w EK EA) in Hw. simpl in Hw.
      destruct (eval w B); simpl in Hw; discriminate.
  - intros _ Hn. apply ask_full_inference_False. intros [v Hv]. apply Hn.
    exists v. simpl in *.
    destruct (eval v K), (eval v A), (eval v B); simpl in *; congruence.
Qed.

Lemma ask_full_inference_more_assumptions_witness :
  value (ask_full_inference Q.rational (And [Q.integer; Q.prime])
           (Or [Not Q.integer; Q.rational]))
    = Ok (Some true).
Proof.
  refine (proj1 (proj2 (ask_full_inference_more_assumptions Q.rational Q.integer
                          Q.prime (Or [Not Q.integer; Q.rational]))) _ _).
  - vm_compute. reflexivity.
  - apply sat_check_Satisfiable. vm_compute. reflexivity.
Defined.

(** ** Further properties of [single_fact_lookup] *)

(** X5. [single_fact_lookup] never raises; the keys of the map it returns
    are exactly the given keys, every key is a member of its own set and
    every member of a set is one of the given keys. *)
Theorem single_fact_lookup_domain (keys : list Basic) (cnf : Basic) :
  exists m,
    value (single_fact_lookup keys cnf) = Ok m /\
    (forall k, has_key m k = true <-> In k keys) /\
    (forall k s, dict_lookup m k = Some s ->
       In k s /\ forall x, In x s -> In x keys).
Proof.
  destruct (single_fact_lookup_spec keys cnf) as (m & Hv & Hin & Hout).
  exists m. split; [assumption|]. split.
  - intros k. unfold has_key. split.
    + intros H. destruct (mem k keys) eqn:E; [now apply mem_In|].
      apply mem_false in E. rewrite (Hout k E) in H. discriminate.
    + intros H. destruct (Hin k H) as (s & -> & _). reflexivity.
  - intros k s Hs.
    destruct (single_fact_lookup_entry keys cnf m k s Hv Hs) as [Hk Hc].
    split.
    + apply Hc. now left.
    + intros y Hy. apply Hc in Hy. destruct Hy as [-> | (Hy & _)]; assumption.
Qed.

Lemma entailed_trans cnf a b c :
  entailed cnf a b = true -> entailed cnf b c = true -> entailed cnf a c = true.
Proof.
  rewrite !entailed_Satisfiable. intros [[v Hv] Hab] [_ Hbc]. split.
  - exists v. simpl in *.
    destruct (eval v cnf) eqn:EK, (eval v a) eqn:EA, (eval v b) eqn:EB;
      try discriminate.
    destruct (eval v c) eqn:EC; [reflexivity|].
    exfalso. apply Hbc. exists v. simpl. now rewrite EK, EB, EC.
  - intros [w Hw]. simpl in Hw.
    destruct (eval w cnf) eqn:EK, (eval w a) eqn:EA, (eval w c) eqn:EC;
      try discriminate.
    destruct (eval w b) eqn:EB.
    + apply Hbc. exists w. simpl. now rewrite EK, EB, EC.
    + apply Hab. exists w. simpl. now rewrite EK, EA, EB.
Qed.

(** X6. The closure map is transitive: when [b] is in [closureMap[a]] and
    [c] is in [closureMap[b]], then [c] is in [closureMap[a]]. *)
Theorem closure_map_transitive (keys : list Basic) (cnf : Basic) (m : dict)
  (a b c : Basic) (sa sb : list Basic) :
  value (single_fact_lookup keys cnf) = Ok m ->
  dict_lookup m a = Some sa ->
  dict_lookup m b = Some sb ->
  In b sa -> In c sb -> In c sa.
Proof.
  intros Hv Ha Hb Hba Hcb.
  destruct (single_fact_lookup_entry keys cnf m a sa Hv Ha) as [_ Hca].
  destruct (single_fact_lookup_entry keys cnf m b sb Hv Hb) as [_ Hcb'].
  apply Hca in Hba. apply Hcb' in Hcb.
  destruct Hba as [-> | (Hbk & Hne & Eab)].
  - rewrite Ha in Hb. injection Hb as <-. apply Hca. exact Hcb.
  - destruct Hcb as [-> | (Hc & _ & Ebc)].
    + apply Hca. right. repeat split; assumption.
    + apply Hca.
      destruct (Basic_eqb c a) eqn:E.
      * left. now apply Basic_eqb_eq.
      * right. apply Basic_eqb_neq in E. repeat split; auto.
        exact (entailed_trans cnf a b c Eab Ebc).
Qed.

Lemma closure_map_transitive_witness :
  In Q.rational [Q.prime; Q.integer; Q.rational].
Proof.
  apply (closure_map_transitive small_keys small_cnf small_dict
           Q.prime Q.integer Q.rational
           [Q.prime; Q.integer; Q.rational] [Q.integer; Q.rational]).
  - vm_compute. reflexivity.
  - reflexivity.
  - reflexivity.
  - simpl. auto.
  - simpl. auto.
Defined.

(** ** The log of [ask] *)

Lemma trace_bind (A B : Type) (m : M A) (f : A -> M B) :
  trace (bind m f) =
  trace m ++ match value m with
             | Ok a => trace (f a)
             | Raise _ => []
             end.
Proof.
  unfold trace, value, bind. destruct m as [t [a|e]]; simpl.
  - now destruct (f a).
  - now rewrite app_nil_r.
Qed.

Lemma M_eq (A : Type) (m1 m2 : M A) :
  trace m1 = trace m2 -> value m1 = value m2 -> m1 = m2.
Proof. destruct m1, m2. simpl. now intros -> ->. Qed.


Lemma silent_bind (A B : Type) (m : M A) (f : A -> M B) :
  silent m -> (forall a, silent (f a)) -> silent (bind m f).
Proof.
  unfold silent. intros Hm Hf. rewrite trace_bind, Hm.
  destruct (value m); [apply Hf | reflexivity].
Qed.

Lemma silent_apply_func e args : silent (apply_func e args).
Proof.
  destruct e; try reflexivity;
    destruct args as [|a1 [|a2 [|a3 r]]]; reflexivity.
Qed.

Lemma _extract_facts_unfold expr symbol :
  _extract_facts expr symbol =
  match expr with
  | BTrue | BFalse => raise AttributeError
  | _ =>
      if negb (has expr symbol) then ret None
      else
        match expr with
        | AppliedPredicate f _ => ret (Some (Predicate f))
        | Add l | Mul l | And l | Or l | Equivalent l =>
            xs <- _extract_facts_list symbol l ;;
            e <- apply_func expr (keep_some xs) ;;
            ret (Some e)
        | Not a =>
            x <- _extract_facts a symbol ;;
            e <- apply_func expr (keep_some [x]) ;;
            ret (Some e)
        | Implies a b =>
            x <- _extract_facts a symbol ;;
            y <- _extract_facts b symbol ;;
            e <- apply_func expr (keep_some [x; y]) ;;
            ret (Some e)
        | _ =>
            e <- apply_func expr [] ;;
            ret (Some e)
        end
  end.
Proof. destruct expr; reflexivity. Qed.

Lemma _extract_facts_list_cons symbol arg r :
  _extract_facts_list symbol (arg :: r) =
  (x <- _extract_facts arg symbol ;;
   xs <- _extract_facts_list symbol r ;;
   ret (x :: xs)).
Proof. reflexivity. Qed.

Lemma silent__extract_facts_list symbol l :
  Forall (fun e => silent (_extract_facts e symbol)) l ->
  silent (_extract_facts_list symbol l).
Proof.
  induction 1 as [|e r He _ IH]; [reflexivity|].
  rewrite _extract_facts_list_cons.
  apply silent_bind; [assumption|]. intros x.
  apply silent_bind; [assumption|]. intros xs. reflexivity.
Qed.

Ltac silent_rest :=
  repeat first
    [ reflexivity
    | apply silent_apply_func
    | assumption
    | apply silent_bind; [|intros ?] ].

(** [_extract_facts] touches neither the closure map nor the
    satisfiability collaborator. *)
Lemma silent__extract_facts symbol expr : silent (_extract_facts expr symbol).
Proof.
  induction expr using Basic_ind'; rewrite _extract_facts_unfold;
    try reflexivity;
    match goal with
    | |- silent (if ?b then _ else _) => destruct b; [reflexivity|]
    end;
    try (apply silent_bind; [now apply silent__extract_facts_list|intros ?]);
    silent_rest.
Qed.




Section ResolverLog.

Variable _eval_ask : Basic -> Basic -> result (option bool).
Variable known_facts_dict : dict.
Variable known_facts_cnf : Basic.

Local Abbreviation ask' := (ask _eval_ask known_facts_dict known_facts_cnf).
Local Abbreviation ask_lookup' := (ask_lookup known_facts_dict).
Local Abbreviation ask_conjuncts' := (ask_conjuncts known_facts_dict).










End ResolverLog.

(** ** Further properties of [ask] *)

Lemma _extract_facts_not_has expr symbol :
  expr <> BTrue -> expr <> BFalse -> has expr symbol = false ->
  _extract_facts expr symbol = ret None.
Proof.
  intros HT HF Hh. rewrite _extract_facts_unfold.
  destruct expr; try congruence; now rewrite Hh.
Qed.

Lemma compiled_entry keys cnf d k :
  value (single_fact_lookup keys cnf) = Ok d ->
  In k keys ->
  exists s, dict_lookup d k = Some s /\ closure_of cnf keys k s.
Proof.
  intros Hv Hk.
  destruct (single_fact_lookup_spec keys cnf) as (m & Hv' & Hin & _).
  rewrite Hv in Hv'. injection Hv' as <-. now apply Hin.
Qed.

Lemma compiled_has_key keys cnf d k :
  value (single_fact_lookup keys cnf) = Ok d ->
  has_key d k = true -> In k keys.
Proof.
  intros Hv Hk.
  destruct (single_fact_lookup_spec keys cnf) as (m & Hv' & _ & Hout).
  rewrite Hv in Hv'. injection Hv' as <-.
  destruct (mem k keys) eqn:E; [now apply mem_In|].
  apply mem_false in E. unfold has_key in Hk. rewrite (Hout k E) in Hk. discriminate.
Qed.

Section ResolverMore.

Variable _eval_ask : Basic -> Basic -> result (option bool).
Variable known_facts_dict : dict.
Variable known_facts_cnf : Basic.

Local Abbreviation ask' := (ask _eval_ask known_facts_dict known_facts_cnf).
Local Abbreviation ask_lookup' := (ask_lookup known_facts_dict).
Local Abbreviation ask_conjuncts' := (ask_conjuncts known_facts_dict).

Lemma trace_dict_getitem k : trace (dict_getitem known_facts_dict k) = [DictGet k].
Proof.
  unfold dict_getitem, bind, tell, trace.
  now destruct (dict_lookup known_facts_dict k).
Qed.

(** The log of [ask] once the handlers have no opinion and facts were
    extracted. *)
Lemma trace_ask_facts prop assum ctx local_facts :
  _eval_ask (apply_key (fst (key_expr prop)) (snd (key_expr prop)))
            (And_ [assum; And_ ctx]) = Ok None ->
  value (_extract_facts (And_ [assum; And_ ctx]) (snd (key_expr prop)))
    = Ok (Some local_facts) ->
  local_facts <> BTrue ->
  trace (ask' prop assum ctx) =
  trace (ask_lookup' (fst (key_expr prop)) local_facts) ++
  match value (ask_lookup' (fst (key_expr prop)) local_facts) with
  | Ok None => trace (ask_full_inference (fst (key_expr prop)) local_facts known_facts_cnf)
  | _ => []
  end.
Proof.
  unfold ask. destruct (key_expr prop) as [key expr]. cbn [fst snd]. cbv zeta.
  generalize (And_ [assum; And_ ctx]) as A. intros A Hh He Hne.
  rewrite trace_bind. unfold lift at 1 2. cbn [value trace fst snd app]. rewrite Hh.
  destruct A; try (now (cbn in He; discriminate));
    rewrite trace_bind, He, (silent__extract_facts expr _); cbn [app];
    (destruct local_facts; try congruence;
     rewrite trace_bind;
     match goal with
     | |- context [value (ask_lookup' ?k ?l)] =>
         destruct (value (ask_lookup' k l)) as [[b|]|e]; reflexivity
     end).
Qed.

(** X8. Assumptions that do not mention the target object are not used:
    when the handlers have no opinion, [ask] returns [None] without any
    access to the closure map and without any satisfiability call. *)
Theorem ask_irrelevant_assumptions (prop assum : Basic) (ctx : list Basic) :
  _eval_ask (apply_key (fst (key_expr prop)) (snd (key_expr prop)))
            (And_ [assum; And_ ctx]) = Ok None ->
  has (And_ [assum; And_ ctx]) (snd (key_expr prop)) = false ->
  And_ [assum; And_ ctx] <> BFalse ->
  ask' prop assum ctx = ([], Ok None).
Proof.
  unfold ask. destruct (key_expr prop) as [key expr]. cbn [fst snd]. cbv zeta.
  generalize (And_ [assum; And_ ctx]) as A. intros A Hh Hhas HF.
  rewrite Hh.
  destruct A; try congruence; try reflexivity;
    rewrite _extract_facts_not_has by (assumption || discriminate);
    reflexivity.
Qed.

Lemma value_ask_lookup_Not key a :
  is_Predicate key = true ->
  value (ask_lookup' key (Not (Predicate a))) =
  match dict_lookup known_facts_dict key with
  | Some s => Ok (if mem (Predicate a) s then Some false else None)
  | None => Raise KeyError
  end.
Proof.
  intros Hk. unfold ask_lookup. rewrite value_bind. cbn [is_Atom value ret snd].
  rewrite Hk, value_bind. cbn [is_Atom value ret snd].
  rewrite value_bind, value_dict_getitem.
  destruct (dict_lookup known_facts_dict key) as [s|]; [|reflexivity].
  now destruct (mem (Predicate a) s).
Qed.

(** X9. The branch of [ask] for a single negated key.  When the handlers
    have no opinion and the extracted facts are [~a]: [ask] indexes the
    closure map with the queried key; it returns [False] if [a] is in
    [closureMap[key]], leaves the decision to the full inference if it is
    not, and raises [KeyError] if the queried key has no entry. *)
Theorem ask_negated_key_lookup (prop assum : Basic) (ctx : list Basic) (a : string) :
  _eval_ask (apply_key (fst (key_expr prop)) (snd (key_expr prop)))
            (And_ [assum; And_ ctx]) = Ok None ->
  value (_extract_facts (And_ [assum; And_ ctx]) (snd (key_expr prop)))
    = Ok (Some (Not (Predicate a))) ->
  (forall s, dict_lookup known_facts_dict (fst (key_expr prop)) = Some s ->
     In (Predicate a) s ->
     value (ask' prop assum ctx) = Ok (Some false)) /\
  (forall s, dict_lookup known_facts_dict (fst (key_expr prop)) = Some s ->
     ~ In (Predicate a) s ->
     value (ask' prop assum ctx) =
     value (ask_full_inference (fst (key_expr prop)) (Not (Predicate a))
              known_facts_cnf)) /\
  (dict_lookup known_facts_dict (fst (key_expr prop)) = None ->
     value (ask' prop assum ctx) = Raise KeyError).
Proof.
  intros Hh He.
  rewrite (value_ask_facts _eval_ask known_facts_dict known_facts_cnf prop assum ctx _ Hh He) by discriminate.
  assert (Hkey : is_Predicate (fst (key_expr prop)) = true).
  { destruct (key_expr_Predicate prop) as [f ->]. reflexivity. }
  rewrite (value_ask_lookup_Not _ a Hkey).
  split; [|split].
  - intros s -> Hin. apply mem_In in Hin. now rewrite Hin.
  - intros s -> Hin. apply mem_false in Hin. now rewrite Hin.
  - intros ->. reflexivity.
Qed.

Lemma value_ask_lookup_plain key local_facts :
  plain_shape local_facts = true ->
  ask_lookup' key local_facts = ret None.
Proof. destruct local_facts; try discriminate; reflexivity. Qed.

(** X10. For facts that are a disjunction, an implication or an equivalence
    [ask] is the full inference itself: the same answer and the same
    log, with no access to the closure map. *)
Theorem ask_plain_facts_full_inference (prop assum : Basic) (ctx : list Basic)
  (local_facts : Basic) :
  _eval_ask (apply_key (fst (key_expr prop)) (snd (key_expr prop)))
            (And_ [assum; And_ ctx]) = Ok None ->
  value (_extract_facts (And_ [assum; And_ ctx]) (snd (key_expr prop)))
    = Ok (Some local_facts) ->
  plain_shape local_facts = true ->
  ask' prop assum ctx
  = ask_full_inference (fst (key_expr prop)) local_facts known_facts_cnf.
Proof.
  intros Hh He Hp.
  assert (Hne : local_facts <> BTrue) by (intros ->; discriminate).
  apply M_eq.
  - rewrite (trace_ask_facts prop assum ctx _ Hh He Hne).
    now rewrite (value_ask_lookup_plain _ _ Hp).
  - rewrite (value_ask_facts _eval_ask known_facts_dict known_facts_cnf prop assum ctx _ Hh He Hne).
    now rewrite (value_ask_lookup_plain _ _ Hp).
Qed.

Lemma trace_ask_lookup_atom key a s :
  dict_lookup known_facts_dict (Predicate a) = Some s ->
  trace (ask_lookup' key (Predicate a)) =
  DictGet (Predicate a) :: (if mem key s then [] else [DictGet (Predicate a)]).
Proof.
  intros Hs. unfold ask_lookup. rewrite trace_bind. cbn [is_Atom value trace ret fst snd app].
  rewrite trace_bind, trace_dict_getitem, value_dict_getitem, Hs. cbn [app].
  destruct (mem key s); [reflexivity|].
  rewrite trace_bind, trace_dict_getitem, value_dict_getitem, Hs.
  now destruct (mem (Not_ key) s).
Qed.

(** X11. What a closure-map answer costs for a single extracted key [a]:
    one access [known_facts_dict[a]] when the queried key is found in
    the entry, two accesses when its negation is found, and no
    satisfiability call in either case. *)
Theorem ask_single_key_hit_log (prop assum : Basic) (ctx : list Basic)
  (a : string) (s : list Basic) :
  _eval_ask (apply_key (fst (key_expr prop)) (snd (key_expr prop)))
            (And_ [assum; And_ ctx]) = Ok None ->
  value (_extract_facts (And_ [assum; And_ ctx]) (snd (key_expr prop)))
    = Ok (Some (Predicate a)) ->
  dict_lookup known_facts_dict (Predicate a) = Some s ->
  (In (fst (key_expr prop)) s ->
     ask' prop assum ctx = ([DictGet (Predicate a)], Ok (Some true))) /\
  (~ In (fst (key_expr prop)) s -> In (Not (fst (key_expr prop))) s ->
     ask' prop assum ctx
     = ([DictGet (Predicate a); DictGet (Predicate a)], Ok (Some false))).
Proof.
  intros Hh He Hs.
  assert (Hne : Predicate a <> BTrue) by discriminate.
  pose proof (trace_ask_facts prop assum ctx _ Hh He Hne) as Ht.
  pose proof (value_ask_facts _eval_ask known_facts_dict known_facts_cnf prop assum ctx _ Hh He Hne) as Hv.
  rewrite (value_ask_lookup_atom _ (fst (key_expr prop)) _ _ Hs), Not__key in Hv, Ht.
  rewrite (trace_ask_lookup_atom (fst (key_expr prop)) _ _ Hs) in Ht.
  split.
  - intros Hin. apply mem_In in Hin. rewrite Hin in Hv, Ht.
    apply M_eq; assumption.
  - intros Hn Hin. apply mem_false in Hn. apply mem_In in Hin.
    rewrite Hn, Hin in Hv. rewrite Hn, Hin in Ht.
    apply M_eq; assumption.
Qed.

Lemma value_ask_conjuncts_returns key args :
  Forall (fun c => is_literal c = true) args ->
  Forall (fun c => has_key known_facts_dict c = true) args ->
  exists r, value (ask_conjuncts' key args) = Ok r.
Proof.
  intros Hl Hk. induction args as [|c rest IH]; [now exists None|].
  apply Forall_cons_iff in Hl. destruct Hl as [Hc Hl].
  apply Forall_cons_iff in Hk. destruct Hk as [Hkc Hk].
  unfold has_key in Hkc.
  destruct (dict_lookup known_facts_dict c) as [s|] eqn:Hs; [|discriminate].
  rewrite (value_ask_conjuncts_step _ key c rest s Hc Hs).
  destruct (mem key s); [eauto|].
  destruct (mem (Not_ key) s); [eauto|].
  now apply IH.
Qed.

(** X12. The conjunction branch tests membership before it indexes: for
    facts that are a conjunction of atomic conjuncts [ask] never raises,
    whether or not the conjuncts have entries in the closure map. *)
Theorem ask_conjunction_never_raises (prop assum : Basic) (ctx args : list Basic) :
  _eval_ask (apply_key (fst (key_expr prop)) (snd (key_expr prop)))
            (And_ [assum; And_ ctx]) = Ok None ->
  value (_extract_facts (And_ [assum; And_ ctx]) (snd (key_expr prop)))
    = Ok (Some (And args)) ->
  Forall (fun c => is_literal c = true) args ->
  exists r, value (ask' prop assum ctx) = Ok r.
Proof.
  intros Hh He Hl.
  rewrite (value_ask_facts _eval_ask known_facts_dict known_facts_cnf prop assum ctx _ Hh He) by discriminate.
  rewrite value_ask_lookup_And.
  destruct (forallb (has_key known_facts_dict) args) eqn:E.
  - apply (forallb_has_key_Forall _eval_ask known_facts_dict known_facts_cnf) in E.
    destruct (value_ask_conjuncts_returns (fst (key_expr prop)) args Hl E) as [r ->].
    destruct r as [b|]; [eauto|].
    rewrite value_ask_full_inference. eauto.
  - rewrite value_ask_full_inference. eauto.
Qed.

End ResolverMore.

Lemma ask_irrelevant_assumptions_witness :
  ask no_opinion small_dict small_cnf
    (AppliedPredicate "integer" sym_x) (AppliedPredicate "rational" (Symbol "y")) []
  = ([], Ok None).
Proof.
  apply (ask_irrelevant_assumptions no_opinion small_dict small_cnf
           (AppliedPredicate "integer" sym_x)
           (AppliedPredicate "rational" (Symbol "y")) []).
  - reflexivity.
  - vm_compute. reflexivity.
  - vm_compute. discriminate.
Defined.

Lemma ask_negated_key_lookup_witness :
  value (ask no_opinion small_dict small_cnf
           (AppliedPredicate "integer" sym_x)
           (Not (AppliedPredicate "rational" sym_x)) [])
    = Ok (Some false).
Proof.
  refine (proj1 (ask_negated_key_lookup no_opinion small_dict small_cnf
                   (AppliedPredicate "integer" sym_x)
                   (Not (AppliedPredicate "rational" sym_x)) [] "rational" _ _)
                [Q.integer; Q.rational] _ _).
  - reflexivity.
  - vm_compute. reflexivity.
  - reflexivity.
  - simpl. auto.
Defined.

Lemma ask_plain_facts_full_inference_witness :
  ask no_opinion small_dict small_cnf
    (AppliedPredicate "integer" sym_x) mentions_negation []
  = ask_full_inference Q.integer (Or [Not Q.integer; Q.real]) small_cnf.
Proof.
  apply (ask_plain_facts_full_inference no_opinion small_dict small_cnf
           (AppliedPredicate "integer" sym_x) mentions_negation []
           (Or [Not Q.integer; Q.real])).
  - reflexivity.
  - vm_compute. reflexivity.
  - reflexivity.
Defined.

Lemma ask_single_key_hit_log_witness :
  ask no_opinion small_dict small_cnf
    (AppliedPredicate "rational" sym_x) (AppliedPredicate "integer" sym_x) []
  = ([DictGet Q.integer], Ok (Some true)).
Proof.
  refine (proj1 (ask_single_key_hit_log no_opinion small_dict small_cnf
                   (AppliedPredicate "rational" sym_x)
                   (AppliedPredicate "integer" sym_x) []
                   "integer" [Q.integer; Q.rational] _ _ _) _).
  - reflexivity.
  - vm_compute. reflexivity.
  - reflexivity.
  - simpl. auto.
Defined.

Lemma ask_conjunction_never_raises_witness :
  exists r,
    value (ask no_opinion small_dict small_cnf
             (AppliedPredicate "rational" sym_x)
             (And [AppliedPredicate "mersenne" sym_x;
                   AppliedPredicate "integer" sym_x]) [])
      = Ok r.
Proof.
  apply (ask_conjunction_never_raises no_opinion small_dict small_cnf
           (AppliedPredicate "rational" sym_x)
           (And [AppliedPredicate "mersenne" sym_x; AppliedPredicate "integer" sym_x])
           [] [Predicate "mersenne"; Q.integer]).
  - reflexivity.
  - vm_compute. reflexivity.
  - repeat constructor.
Defined.

(** ** The closure-map tier against the full inference *)

Lemma eval_And2 v K A : eval v (And [K; A]) = eval v K && eval v A.
Proof. cbn [eval forallb]. now rewrite andb_true_r. Qed.

Lemma eval_And3 v K A P :
  eval v (And [K; A; P]) = eval v K && eval v A && eval v P.
Proof. cbn [eval forallb]. now rewrite andb_true_r, andb_assoc. Qed.

Lemma eval_And3_Not v K A P :
  eval v (And [K; A; Not P]) = eval v K && eval v A && negb (eval v P).
Proof. cbn [eval forallb]. now rewrite andb_true_r, andb_assoc. Qed.

Section CompiledResolver.

Variable _eval_ask : Basic -> Basic -> result (option bool).
Variable known_facts_keys : list Basic.
Variable known_facts_cnf : Basic.
Variable known_facts_dict : dict.

(** The closure map is the one compiled from the CNF, over predicate keys. *)
Hypothesis compiled :
  value (single_fact_lookup known_facts_keys known_facts_cnf) = Ok known_facts_dict.
Hypothesis predicate_keys :
  Forall (fun k => is_Predicate k = true) known_facts_keys.

Local Abbreviation ask' := (ask _eval_ask known_facts_dict known_facts_cnf).

Lemma compiled_no_negation key c s :
  is_Predicate key = true ->
  In c known_facts_keys ->
  dict_lookup known_facts_dict c = Some s ->
  mem (Not_ key) s = false.
Proof.
  intros Hk Hc Hs. apply mem_false. intros Hin.
  destruct (compiled_entry _ _ _ c compiled Hc) as (s' & Hs' & Hcl).
  rewrite Hs in Hs'. injection Hs' as <-.
  pose proof (closure_members_Predicate _ _ _ _ predicate_keys Hc Hcl _ Hin) as Hp.
  destruct key; discriminate.
Qed.

Lemma compiled_member_entails c key s v :
  In c known_facts_keys ->
  dict_lookup known_facts_dict c = Some s ->
  In key s ->
  eval v known_facts_cnf = true -> eval v c = true -> eval v key = true.
Proof.
  intros Hc Hs Hin HK HC.
  destruct (compiled_entry _ _ _ c compiled Hc) as (s' & Hs' & Hcl).
  rewrite Hs in Hs'. injection Hs' as <-.
  apply Hcl in Hin. destruct Hin as [-> | (_ & _ & He)]; [assumption|].
  apply entailed_Satisfiable in He. destruct He as [_ Hn].
  destruct (eval v key) eqn:E; [reflexivity|].
  exfalso. apply Hn. exists v. simpl. now rewrite HK, HC, E.
Qed.

(** X13. With the closure map compiled from the CNF, the closure-map answer
    for a single extracted key [a] is the answer of the full inference,
    provided [a] is consistent with the knowledge base. *)
Theorem ask_single_key_agrees_with_full_inference (prop assum : Basic)
  (ctx : list Basic) (a : string) :
  _eval_ask (apply_key (fst (key_expr prop)) (snd (key_expr prop)))
            (And_ [assum; And_ ctx]) = Ok None ->
  value (_extract_facts (And_ [assum; And_ ctx]) (snd (key_expr prop)))
    = Ok (Some (Predicate a)) ->
  In (Predicate a) known_facts_keys ->
  Satisfiable (And [known_facts_cnf; Predicate a]) ->
  value (ask' prop assum ctx) =
  value (ask_full_inference (fst (key_expr prop)) (Predicate a) known_facts_cnf).
Proof.
  intros Hh He Ha [v Hv].
  rewrite (value_ask_facts _eval_ask known_facts_dict known_facts_cnf
             prop assum ctx _ Hh He) by discriminate.
  destruct (compiled_entry _ _ _ _ compiled Ha) as (s & Hs & Hcl).
  rewrite (value_ask_lookup_atom known_facts_dict (fst (key_expr prop)) a s Hs).
  assert (Hkey : is_Predicate (fst (key_expr prop)) = true).
  { destruct (key_expr_Predicate prop) as [f ->]. reflexivity. }
  rewrite (compiled_no_negation _ _ s Hkey Ha Hs).
  destruct (mem (fst (key_expr prop)) s) eqn:E; [|reflexivity].
  apply mem_In in E. symmetry.
  rewrite eval_And2 in Hv. apply andb_true_iff in Hv. destruct Hv as [EK EA].
  apply ask_full_inference_True.
  - exists v. rewrite eval_And3, EK, EA.
    now rewrite (compiled_member_entails _ _ s v Ha Hs E EK EA).
  - intros [w Hw]. rewrite eval_And3_Not in Hw.
    apply andb_true_iff in Hw. destruct Hw as [Hw HN].
    apply andb_true_iff in Hw. destruct Hw as [WK WA].
    rewrite (compiled_member_entails _ _ s w Ha Hs E WK WA) in HN. discriminate.
Qed.

(** X14. With the closure map compiled from the CNF, the answer of the
    negated-key branch is the answer of the full inference, whenever the
    queried key is one of the compiled keys. *)
Theorem ask_negated_key_agrees_with_full_inference (prop assum : Basic)
  (ctx : list Basic) (a : string) :
  _eval_ask (apply_key (fst (key_expr prop)) (snd (key_expr prop)))
            (And_ [assum; And_ ctx]) = Ok None ->
  value (_extract_facts (And_ [assum; And_ ctx]) (snd (key_expr prop)))
    = Ok (Some (Not (Predicate a))) ->
  In (fst (key_expr prop)) known_facts_keys ->
  value (ask' prop assum ctx) =
  value (ask_full_inference (fst (key_expr prop)) (Not (Predicate a))
           known_facts_cnf).
Proof.
  intros Hh He Hk.
  rewrite (value_ask_facts _eval_ask known_facts_dict known_facts_cnf
             prop assum ctx _ Hh He) by discriminate.
  assert (Hkey : is_Predicate (fst (key_expr prop)) = true).
  { destruct (key_expr_Predicate prop) as [f ->]. reflexivity. }
  rewrite (value_ask_lookup_Not known_facts_dict _ a Hkey).
  destruct (compiled_entry _ _ _ _ compiled Hk) as (s & Hs & Hcl).
  rewrite Hs.
  destruct (mem (Predicate a) s) eqn:E; [|reflexivity].
  apply mem_In in E. symmetry. apply ask_full_inference_False.
  intros [v Hv]. rewrite eval_And3 in Hv.
  apply andb_true_iff in Hv. destruct Hv as [Hv EP].
  apply andb_true_iff in Hv. destruct Hv as [EK EN].
  cbn [eval] in EN.
  change (v (Predicate a)) with (eval v (Predicate a)) in EN.
  rewrite (compiled_member_entails _ _ s v Hk Hs E EK EP) in EN. discriminate.
Qed.

Lemma compiled_conjuncts key args :
  is_Predicate key = true ->
  Forall (fun c => has_key known_facts_dict c = true) args ->
  value (ask_conjuncts known_facts_dict key args) = Ok None \/
  (value (ask_conjuncts known_facts_dict key args) = Ok (Some true) /\
   exists c s, In c args /\ In c known_facts_keys /\
               dict_lookup known_facts_dict c = Some s /\ In key s).
Proof.
  intros Hkey Hall. induction args as [|c rest IH]; [now left|].
  apply Forall_cons_iff in Hall. destruct Hall as [Hc Hall].
  pose proof (compiled_has_key _ _ _ c compiled Hc) as Hck.
  unfold has_key in Hc.
  destruct (dict_lookup known_facts_dict c) as [s|] eqn:Hs; [|discriminate].
  assert (Hp : is_Predicate c = true).
  { rewrite Forall_forall in predicate_keys. now apply predicate_keys. }
  assert (Hl : is_literal c = true) by (destruct c; try discriminate; reflexivity).
  rewrite (value_ask_conjuncts_step known_facts_dict key c rest s Hl Hs).
  rewrite (compiled_no_negation key c s Hkey Hck Hs), Hp.
  destruct (mem key s) eqn:E.
  - right. split; [reflexivity|]. apply mem_In in E.
    exists c, s. repeat split; auto. now left.
  - destruct (IH Hall) as [H | (H & c' & s' & Hin & Hrest)]; [now left|].
    right. split; [assumption|]. exists c', s'. split; [now right | assumption].
Qed.

(** X15. With the closure map compiled from the CNF, the answer of the
    conjunction branch is the answer of the full inference, provided the
    conjunction is consistent with the knowledge base. *)
Theorem ask_conjunction_agrees_with_full_inference (prop assum : Basic)
  (ctx args : list Basic) :
  _eval_ask (apply_key (fst (key_expr prop)) (snd (key_expr prop)))
            (And_ [assum; And_ ctx]) = Ok None ->
  value (_extract_facts (And_ [assum; And_ ctx]) (snd (key_expr prop)))
    = Ok (Some (And args)) ->
  Satisfiable (And [known_facts_cnf; And args]) ->
  value (ask' prop assum ctx) =
  value (ask_full_inference (fst (key_expr prop)) (And args) known_facts_cnf).
Proof.
  intros Hh He [v Hv].
  rewrite (value_ask_facts _eval_ask known_facts_dict known_facts_cnf
             prop assum ctx _ Hh He) by discriminate.
  rewrite value_ask_lookup_And.
  destruct (forallb (has_key known_facts_dict) args) eqn:E; [|reflexivity].
  apply (forallb_has_key_Forall _eval_ask known_facts_dict known_facts_cnf) in E.
  assert (Hkey : is_Predicate (fst (key_expr prop)) = true).
  { destruct (key_expr_Predicate prop) as [f ->]. reflexivity. }
  destruct (compiled_conjuncts (fst (key_expr prop)) args Hkey E)
    as [-> | (-> & c & s & Hin & Hck & Hs & Hks)]; [reflexivity|].
  assert (HP : forall w, eval w known_facts_cnf = true ->
                         eval w (And args) = true ->
                         eval w (fst (key_expr prop)) = true).
  { intros w HK HA. cbn [eval] in HA. rewrite forallb_forall in HA.
    exact (compiled_member_entails c _ s w Hck Hs Hks HK (HA c Hin)). }
  rewrite eval_And2 in Hv. apply andb_true_iff in Hv. destruct Hv as [EK EA].
  symmetry. apply ask_full_inference_True.
  - exists v. rewrite eval_And3, EK, EA. now rewrite (HP v EK EA).
  - intros [w Hw]. rewrite eval_And3_Not in Hw.
    apply andb_true_iff in Hw. destruct Hw as [Hw HN].
    apply andb_true_iff in Hw. destruct Hw as [WK WA].
    rewrite (HP w WK WA) in HN. discriminate.
Qed.

End CompiledResolver.

Lemma ask_single_key_agrees_with_full_inference_witness :
  value (ask no_opinion small_dict small_cnf
           (AppliedPredicate "rational" sym_x) (AppliedPredicate "integer" sym_x) [])
  = value (ask_full_inference Q.rational Q.integer small_cnf).
Proof.
  apply (ask_single_key_agrees_with_full_inference no_opinion small_keys small_cnf
           small_dict small_dict_compiled).
  - repeat constructor.
  - reflexivity.
  - vm_compute. reflexivity.
  - simpl. auto.
  - apply sat_check_Satisfiable. vm_compute. reflexivity.
Defined.

Lemma ask_negated_key_agrees_with_full_inference_witness :
  value (ask no_opinion small_dict small_cnf
           (AppliedPredicate "integer" sym_x)
           (Not (AppliedPredicate "rational" sym_x)) [])
  = value (ask_full_inference Q.integer (Not Q.rational) small_cnf).
Proof.
  apply (ask_negated_key_agrees_with_full_inference no_opinion small_keys small_cnf
           small_dict small_dict_compiled).
  - reflexivity.
  - vm_compute. reflexivity.
  - simpl. auto.
Defined.

Lemma ask_conjunction_agrees_with_full_inference_witness :
  value (ask no_opinion small_dict small_cnf
           (AppliedPredicate "rational" sym_x)
           (And [AppliedPredicate "prime" sym_x; AppliedPredicate "integer" sym_x]) [])
  = value (ask_full_inference Q.rational (And [Q.prime; Q.integer]) small_cnf).
Proof.
  apply (ask_conjunction_agrees_with_full_inference no_opinion small_keys small_cnf
           small_dict small_dict_compiled).
  - repeat constructor.
  - reflexivity.
  - vm_compute. reflexivity.
  - apply sat_check_Satisfiable. vm_compute. reflexivity.
Defined.

(** ** [_extract_facts] *)

Lemma value_bind_not_None (A : Type) (m : M A) (f : A -> M (option Basic)) :
  (forall a, value (f a) <> Ok None) -> value (bind m f) <> Ok None.
Proof.
  intros Hf. rewrite value_bind. destruct (value m); [apply Hf | discriminate].
Qed.


(** X16. [_extract_facts] returns [None] exactly when the expression does not
    contain the symbol; when it does, the result is some facts or an
    exception. *)
Theorem extract_facts_None_iff (expr symbol : Basic) :
  expr <> BTrue -> expr <> BFalse ->
  (value (_extract_facts expr symbol) = Ok None <-> has expr symbol = false).
Proof.
  intros HT HF. split.
  - intros Hv. destruct (has expr symbol) eqn:Hh; [|reflexivity].
    exfalso. revert Hv. rewrite _extract_facts_unfold.
    destruct expr; try congruence; rewrite Hh; cbn [negb];
      try discriminate;
      repeat (apply value_bind_not_None; intros ?); discriminate.
  - intros Hh. now rewrite _extract_facts_not_has.
Qed.

Lemma extract_facts_None_iff_witness :
  value (_extract_facts (AppliedPredicate "even" (Symbol "y")) sym_x) = Ok None
  <-> has (AppliedPredicate "even" (Symbol "y")) sym_x = false.
Proof.
  apply (extract_facts_None_iff (AppliedPredicate "even" (Symbol "y")) sym_x);
    discriminate.
Defined.

Lemma value__extract_facts_list_applied symbol l :
  Forall (fun e => is_applied e = true) l ->
  value (_extract_facts_list symbol l) = Ok (map (relevant_key symbol) l).
Proof.
  induction 1 as [|e r He _ IH]; [reflexivity|].
  rewrite _extract_facts_list_cons, value_bind.
  destruct e; try discriminate.
  rewrite _extract_facts_unfold. cbn [relevant_key map].
  destruct (has (AppliedPredicate func e) symbol); cbn [negb value ret snd];
    rewrite value_bind, IH; reflexivity.
Qed.

(** X17. For an assumption that is a conjunction of applied predicates, the
    extracted facts are the conjunction of the keys of the conjuncts that
    mention the target object, in their order; the other conjuncts are
    dropped. *)
Theorem extract_facts_conjunction (symbol : Basic) (l : list Basic) :
  Forall (fun e => is_applied e = true) l ->
  has (And l) symbol = true ->
  value (_extract_facts (And l) symbol)
  = Ok (Some (And_ (keep_some (map (relevant_key symbol) l)))).
Proof.
  intros Hl Hh. rewrite _extract_facts_unfold, Hh. cbn [negb].
  rewrite value_bind, (value__extract_facts_list_applied symbol l Hl).
  reflexivity.
Qed.

Lemma extract_facts_conjunction_witness :
  value (_extract_facts
           (And [AppliedPredicate "even" sym_x;
                 AppliedPredicate "integer" (Symbol "y");
                 AppliedPredicate "prime" (Mul [sym_x; Symbol "y"])]) sym_x)
  = Ok (Some (And [Q.even; Q.prime])).
Proof.
  apply (extract_facts_conjunction sym_x
           [AppliedPredicate "even" sym_x;
            AppliedPredicate "integer" (Symbol "y");
            AppliedPredicate "prime" (Mul [sym_x; Symbol "y"])]).
  - repeat constructor.
  - vm_compute. reflexivity.
Defined.

Lemma keys_only_flatten_And l :
  forallb keys_only l = true -> forallb keys_only (flatten_And l) = true.
Proof.
  induction l as [|x r IH]; [reflexivity|].
  cbn [forallb]. rewrite andb_true_iff. intros [Hx Hr].
  destruct x; cbn [flatten_And forallb]; try discriminate;
    rewrite ?forallb_app, ?IH, ?andb_true_r by assumption; auto.
Qed.

Lemma keys_only_flatten_Or l :
  forallb keys_only l = true -> forallb keys_only (flatten_Or l) = true.
Proof.
  induction l as [|x r IH]; [reflexivity|].
  cbn [forallb]. rewrite andb_true_iff. intros [Hx Hr].
  destruct x; cbn [flatten_Or forallb]; try discriminate;
    rewrite ?forallb_app, ?IH, ?andb_true_r by assumption; auto.
Qed.

Lemma keys_only_collapse identity op l :
  keys_only identity = true ->
  (forall l', forallb keys_only l' = true -> keys_only (op l') = true) ->
  (forall x, In x l -> keys_only x = true) ->
  keys_only (collapse identity op l) = true.
Proof.
  intros Hi Hop Hl. destruct l as [|x [|y r]]; cbn [collapse].
  - assumption.
  - apply Hl. now left.
  - apply Hop. apply forallb_forall. exact Hl.
Qed.

Lemma keys_only_And_ l : forallb keys_only l = true -> keys_only (And_ l) = true.
Proof.
  intros H. apply keys_only_flatten_And in H. unfold And_.
  destruct (mem BFalse (flatten_And l)); [reflexivity|].
  apply keys_only_collapse; [reflexivity | auto |].
  intros x Hx. apply In_dedup, filter_In in Hx. destruct Hx as [Hx _].
  rewrite forallb_forall in H. now apply H.
Qed.

Lemma keys_only_Or_ l : forallb keys_only l = true -> keys_only (Or_ l) = true.
Proof.
  intros H. apply keys_only_flatten_Or in H. unfold Or_.
  destruct (mem BTrue (flatten_Or l)); [reflexivity|].
  apply keys_only_collapse; [reflexivity | auto |].
  intros x Hx. apply In_dedup, filter_In in Hx. destruct Hx as [Hx _].
  rewrite forallb_forall in H. now apply H.
Qed.

Lemma keys_only_Not_ a : keys_only a = true -> keys_only (Not_ a) = true.
Proof. destruct a; try discriminate; auto. Qed.

Lemma keys_only_extract_list symbol l :
  Forall (fun e => forall r, is_assumption e = true ->
                             value (_extract_facts e symbol) = Ok (Some r) ->
                             keys_only r = true) l ->
  forallb is_assumption l = true ->
  forall xs, value (_extract_facts_list symbol l) = Ok xs ->
             forallb keys_only (keep_some xs) = true.
Proof.
  induction 1 as [|e r He _ IH]; intros Hl xs Hv.
  - injection Hv as <-. reflexivity.
  - cbn [forallb] in Hl. apply andb_true_iff in Hl. destruct Hl as [Hle Hlr].
    rewrite _extract_facts_list_cons, value_bind in Hv.
    destruct (value (_extract_facts e symbol)) as [x|] eqn:Ex; [|discriminate].
    rewrite value_bind in Hv.
    destruct (value (_extract_facts_list symbol r)) as [xs'|] eqn:Er; [|discriminate].
    injection Hv as <-.
    specialize (IH Hlr xs' eq_refl).
    destruct x as [x|]; cbn [keep_some forallb]; [|assumption].
    now rewrite (He x Hle eq_refl), IH.
Qed.

(** X18. The facts extracted from an assumption expression (a boolean
    combination of applied predicates) are a formula over bare predicate
    keys: no applied predicate and no target object is left in them. *)
Theorem extract_facts_keys_only (symbol expr r : Basic) :
  is_assumption expr = true ->
  value (_extract_facts expr symbol) = Ok (Some r) ->
  keys_only r = true.
Proof.
  revert r. induction expr using Basic_ind'; intros r Ha Hv;
    try discriminate; rewrite _extract_facts_unfold in Hv;
    match type of Hv with
    | context [if ?b then _ else _] => destruct b; [discriminate|]
    end.
  - injection Hv as <-. reflexivity.
  - rewrite value_bind in Hv.
    destruct (value (_extract_facts_list symbol l)) as [xs|] eqn:E; [|discriminate].
    injection Hv as <-. apply keys_only_And_.
    exact (keys_only_extract_list symbol l H Ha xs E).
  - rewrite value_bind in Hv.
    destruct (value (_extract_facts_list symbol l)) as [xs|] eqn:E; [|discriminate].
    injection Hv as <-. apply keys_only_Or_.
    exact (keys_only_extract_list symbol l H Ha xs E).
  - rewrite value_bind in Hv.
    destruct (value (_extract_facts expr symbol)) as [[x|]|] eqn:E;
      try discriminate.
    injection Hv as <-. apply keys_only_Not_. now apply IHexpr.
  - cbn [is_assumption] in Ha. apply andb_true_iff in Ha. destruct Ha as [Ha1 Ha2].
    rewrite value_bind in Hv.
    destruct (value (_extract_facts expr1 symbol)) as [x|] eqn:E1; [|discriminate].
    rewrite value_bind in Hv.
    destruct (value (_extract_facts expr2 symbol)) as [y|] eqn:E2; [|discriminate].
    destruct x as [x|], y as [y|]; try discriminate.
    injection Hv as <-. cbn [keys_only].
    now rewrite (IHexpr1 x Ha1 eq_refl), (IHexpr2 y Ha2 eq_refl).
  - rewrite value_bind in Hv.
    destruct (value (_extract_facts_list symbol l)) as [xs|] eqn:E; [|discriminate].
    injection Hv as <-. cbn [keys_only].
    exact (keys_only_extract_list symbol l H Ha xs E).
Qed.

Lemma extract_facts_keys_only_witness :
  keys_only (Or [Not Q.integer; Q.real]) = true.
Proof.
  apply (extract_facts_keys_only sym_x mentions_negation (Or [Not Q.integer; Q.real])).
  - reflexivity.
  - vm_compute. reflexivity.
Defined.

(** ** [register_handler] and [remove_handler] *)

Lemma registry_lookup_set_same q key hs :
  registry_lookup (registry_set q key hs) key = Some hs.
Proof.
  induction q as [|[k hs'] r IH]; simpl.
  - now rewrite String.eqb_refl.
  - destruct (String.eqb k key) eqn:E; simpl; now rewrite E.
Qed.

Lemma registry_lookup_set_other q key hs k :
  k <> key -> registry_lookup (registry_set q key hs) k = registry_lookup q k.
Proof.
  intros Hne. induction q as [|[k0 hs0] r IH]; simpl.
  - destruct (String.eqb key k) eqn:E; [|reflexivity].
    apply String.eqb_eq in E. congruence.
  - destruct (String.eqb k0 key) eqn:E; simpl.
    + apply String.eqb_eq in E. subst k0.
      destruct (String.eqb key k) eqn:E'; [|reflexivity].
      apply String.eqb_eq in E'. congruence.
    + now rewrite IH.
Qed.

Lemma registry_lookup_register q key handler k :
  registry_lookup (register_handler q key handler) k =
  if String.eqb k key
  then Some (match registry_lookup q key with
             | Some hs => hs ++ [handler]
             | None => [handler]
             end)
  else registry_lookup q k.
Proof.
  unfold register_handler.
  destruct (String.eqb k key) eqn:E.
  - apply String.eqb_eq in E. subst k.
    destruct (registry_lookup q key); apply registry_lookup_set_same.
  - apply String.eqb_neq in E.
    destruct (registry_lookup q key); now apply registry_lookup_set_other.
Qed.

(** X19. Registration is additive: after [register_handler(key, handler)]
    the predicate [key] has its former handlers followed by [handler]
    (just [handler] if the predicate is new), and every other predicate
    has the handlers it had. *)
Theorem register_handler_lookup (q : registry) (key handler k : string) :
  registry_lookup (register_handler q key handler) k =
  if String.eqb k key
  then Some (match registry_lookup q key with
             | Some hs => hs ++ [handler]
             | None => [handler]
             end)
  else registry_lookup q k.
Proof. exact (registry_lookup_register q key handler k). Qed.

Lemma list_remove_absent l x : ~ In x l -> list_remove l x = None.
Proof.
  induction l as [|y r IH]; [reflexivity|]. simpl. intros H.
  destruct (String.eqb y x) eqn:E.
  - apply String.eqb_eq in E. tauto.
  - rewrite IH; tauto.
Qed.

Lemma list_remove_first l1 l2 x :
  ~ In x l1 -> list_remove (l1 ++ x :: l2) x = Some (l1 ++ l2).
Proof.
  induction l1 as [|y r IH]; simpl; intros H.
  - now rewrite String.eqb_refl.
  - destruct (String.eqb y x) eqn:E.
    + apply String.eqb_eq in E. tauto.
    + rewrite IH; tauto.
Qed.

Lemma In_first_occurrence (l : list string) x :
  In x l -> exists l1 l2, l = l1 ++ x :: l2 /\ ~ In x l1.
Proof.
  induction l as [|y r IH]; [intros []|]. intros H.
  destruct (String.eqb y x) eqn:E.
  - apply String.eqb_eq in E. subst y. exists [], r. split; [reflexivity | intros []].
  - apply String.eqb_neq in E. destruct H as [H | H]; [contradiction|].
    destruct (IH H) as (l1 & l2 & -> & Hn).
    exists (y :: l1), l2. split; [reflexivity|]. intros [H' | H']; tauto.
Qed.

(** X20. [remove_handler(key, handler)] raises [AttributeError] for a name
    that was never registered and raises as well when the handler is not
    among the predicate's handlers; otherwise it removes the first
    occurrence of the handler, and only that, and leaves every other
    predicate as it was. *)
Theorem remove_handler_cases (q : registry) (key handler : string) :
  (registry_lookup q key = None ->
   remove_handler q key handler = Raise AttributeError) /\
  (forall hs, registry_lookup q key = Some hs -> ~ In handler hs ->
   exists e, remove_handler q key handler = Raise e) /\
  (forall hs, registry_lookup q key = Some hs -> In handler hs ->
   exists q' l1 l2,
     remove_handler q key handler = Ok q' /\
     hs = l1 ++ handler :: l2 /\ ~ In handler l1 /\
     registry_lookup q' key = Some (l1 ++ l2) /\
     forall k, k <> key -> registry_lookup q' k = registry_lookup q k).
Proof.
  unfold remove_handler. split; [|split].
  - intros ->. reflexivity.
  - intros hs -> Hn. rewrite (list_remove_absent hs handler Hn). eauto.
  - intros hs -> Hin.
    destruct (In_first_occurrence hs handler Hin) as (l1 & l2 & -> & Hn).
    rewrite (list_remove_first l1 l2 handler Hn).
    exists (registry_set q key (l1 ++ l2)), l1, l2.
    repeat split; auto.
    + apply registry_lookup_set_same.
    + intros k Hk. now apply registry_lookup_set_other.
Qed.

Lemma remove_handler_cases_witness :
  remove_handler Q_loaded "mersenne" "MersenneHandler" = Raise AttributeError.
Proof.
  apply (remove_handler_cases Q_loaded "mersenne" "MersenneHandler").
  vm_compute. reflexivity.
Defined.

(** X21. Removing a handler right after registering it: a predicate that
    existed, without that handler, has its former handlers again; a
    predicate that the registration created stays registered, with no
    handler.  Every other predicate is as before. *)
Theorem register_then_remove_handler (q : registry) (key handler : string) :
  (forall hs, registry_lookup q key = Some hs -> ~ In handler hs ->
   exists q',
     remove_handler (register_handler q key handler) key handler = Ok q' /\
     forall k, registry_lookup q' k = registry_lookup q k) /\
  (registry_lookup q key = None ->
   exists q',
     remove_handler (register_handler q key handler) key handler = Ok q' /\
     registry_lookup q' key = Some [] /\
     forall k, k <> key -> registry_lookup q' k = registry_lookup q k).
Proof.
  split.
  - intros hs Hs Hn. unfold remove_handler.
    rewrite registry_lookup_register, String.eqb_refl, Hs.
    rewrite (list_remove_first hs [] handler Hn), app_nil_r.
    eexists. split; [reflexivity|]. intros k.
    destruct (String.eqb k key) eqn:E.
    + apply String.eqb_eq in E. subst k. now rewrite registry_lookup_set_same.
    + apply String.eqb_neq in E.
      rewrite (registry_lookup_set_other _ _ _ _ E), registry_lookup_register.
      apply String.eqb_neq in E. now rewrite E.
  - intros Hs. unfold remove_handler.
    rewrite registry_lookup_register, String.eqb_refl, Hs.
    cbn [list_remove]. rewrite String.eqb_refl.
    eexists. split; [reflexivity|]. split.
    + apply registry_lookup_set_same.
    + intros k E.
      rewrite (registry_lookup_set_other _ _ _ _ E), registry_lookup_register.
      apply String.eqb_neq in E. now rewrite E.
Qed.

Lemma register_then_remove_handler_witness :
  exists q',
    remove_handler (register_handler Q_loaded "mersenne" "MersenneHandler")
      "mersenne" "MersenneHandler" = Ok q' /\
    registry_lookup q' "mersenne" = Some [] /\
    forall k, k <> "mersenne" -> registry_lookup q' k = registry_lookup Q_loaded k.
Proof.
  apply (register_then_remove_handler Q_loaded "mersenne" "MersenneHandler").
  vm_compute. reflexivity.
Defined.

(** ** [compute_known_facts] *)

(** X22. Whatever the axioms and the keys, compilation returns normally as
    soon as the CNF is a formula object: it returns the arguments of the
    CNF together with the closure map that [single_fact_lookup] builds
    from that same CNF.  When the CNF is a Python constant, reading its
    [args] raises [AttributeError] before any inference is made. *)
Theorem compute_known_facts_returns (to_cnf : Basic -> Basic)
  (known_facts : Basic) (keys : list Basic) :
  (to_cnf known_facts <> BTrue -> to_cnf known_facts <> BFalse ->
   exists m,
     value (compute_known_facts to_cnf known_facts keys)
       = Ok (args_of (to_cnf known_facts), m) /\
     value (single_fact_lookup keys (to_cnf known_facts)) = Ok m) /\
  (to_cnf known_facts = BTrue \/ to_cnf known_facts = BFalse ->
   compute_known_facts to_cnf known_facts keys = ([], Raise AttributeError)).
Proof.
  unfold compute_known_facts. split.
  - intros HT HF.
    destruct (single_fact_lookup_spec keys (to_cnf known_facts)) as (m & Hv & _).
    exists m. split; [|assumption].
    rewrite value_bind.
    assert (Hg : value (get_args (to_cnf known_facts))
                 = Ok (args_of (to_cnf known_facts))).
    { destruct (to_cnf known_facts); try reflexivity; congruence. }
    rewrite Hg, value_bind, Hv. reflexivity.
  - intros [-> | ->]; reflexivity.
Qed.

Lemma compute_known_facts_returns_witness :
  exists m,
    value (compute_known_facts (fun f => f) small_cnf small_keys)
      = Ok ([Or [Not Q.integer; Q.rational]; Or [Not Q.prime; Q.integer]], m) /\
    value (single_fact_lookup small_keys small_cnf) = Ok m.
Proof.
  apply (compute_known_facts_returns (fun f => f) small_cnf small_keys);
    discriminate.
Defined.
